(** * extract_mp3_chunks_diagnostics: the segment-extraction handler

    A shallow embedding of [handler] from
    [processors/extract_mp3_chunks_diagnostics.py] and the properties of its
    segment loop.

    Conventions of the embedding.
    - A Python [str] is a Rocq [string] holding the UTF-8 encoding of the
      text; [bytes] are [list byte].
    - Every call that leaves the handler (the host session, [getTempFile],
      [subprocess.run]) takes its answer, or the exception it raises, from an
      environment; the environment is indexed by the segment index, which the
      loop visits at most once.
    - Exceptions are instances of Python's [Exception], identified by their
      [str(e)] text, the only thing the handler ever reads from them.
    - The log functions, [os.path.exists], [os.path.getsize] of an existing
      file and [os.remove] of an existing file do not raise.
    - [while True] is run with fuel; results that say a run returns are
      stated for every fuel that is large enough. *)

From Stdlib Require Import ZArith Ascii String DecimalString DecimalNat DecimalFacts Lia.
From Stdlib.Strings Require Import Byte.
From stdpp Require Import base option list strings gmap.


(** ** Python values and formatting *)

Module Py.

(** [str(n)] and [f"{n}"] for an [int]. *)
Definition str_nat (n : nat) : string := NilZero.string_of_uint (Nat.to_uint n).
Definition str_int (z : Z) : string := NilZero.string_of_int (Z.to_int z).

(** [f"{n:03d}"] for a non-negative [int]: zero-padded to three digits. *)
Definition fmt_03d (n : nat) : string :=
  let s := str_nat n in
  String.concat "" (replicate (3 - String.length s) "0") +:+ s.

(** A [float] with an integral value, given by that value.  The handler only
    ever forms [segment_index * 30.0] and [30.0].  Below 10^16 the product is
    computed exactly and [str] prints it as its digits followed by [.0];
    from 10^16 on Python switches to exponent notation, which is not
    modelled. *)
Definition str_float (v : nat) : string := str_nat v +:+ ".0".

(** [f"{v:.1f}"] of an integral float. *)
Definition fmt_1f (v : nat) : string := str_nat v +:+ ".0".

(** [not s] for [s] a [str] or [None]. *)
Definition falsy (s : option string) : bool :=
  match s with
  | None => true
  | Some s => if decide (s = "") then true else false
  end.

(** ['.' in s] *)
Fixpoint has_dot (s : string) : bool :=
  match s with
  | EmptyString => false
  | String c s' => if decide (c = "."%char) then true else has_dot s'
  end.

(** [s.rsplit('.', 1)[0]]: everything before the last ['.'], the whole
    string when there is none. *)
Fixpoint rsplit_dot_head (s : string) : string :=
  match s with
  | EmptyString => EmptyString
  | String c s' =>
      if has_dot s' then String c (rsplit_dot_head s')
      else if decide (c = "."%char) then EmptyString
      else String c s'
  end.

(** *** [bytes.decode()]

    The default codec is UTF-8 with [errors='strict'].  As a [str] is kept in
    its UTF-8 encoding, decoding returns the bytes unchanged when they are
    well formed and raises [UnicodeDecodeError] otherwise.  The scan and the
    text of the error follow CPython. *)

Inductive utf8_fault :=
| InvalidStart
| InvalidContinuation (n : nat)   (* the n-th byte after the lead byte *)
| UnexpectedEnd.

Definition is_continuation (b : N) : bool := ((0x80 <=? b) && (b <=? 0xBF))%N.

(** The sequence at the head of the input: its length, or why it is
    rejected. *)
Definition utf8_head (l : list N) : nat + utf8_fault :=
  match l with
  | [] => inl 0
  | ch :: r =>
      if (ch <? 0x80)%N then inl 1
      else if (ch <? 0xE0)%N then
        if (ch <? 0xC2)%N then inr InvalidStart
        else match r with
             | [] => inr UnexpectedEnd
             | ch2 :: _ =>
                 if is_continuation ch2 then inl 2
                 else inr (InvalidContinuation 1)
             end
      else if (ch <? 0xF0)%N then
        match r with
        | [] => inr UnexpectedEnd
        | ch2 :: r2 =>
            if negb (is_continuation ch2)
               || (if (ch2 <? 0xA0)%N then (ch =? 0xE0)%N else (ch =? 0xED)%N)
            then inr (InvalidContinuation 1)
            else match r2 with
                 | [] => inr UnexpectedEnd
                 | ch3 :: _ =>
                     if is_continuation ch3 then inl 3
                     else inr (InvalidContinuation 2)
                 end
        end
      else if (ch <? 0xF5)%N then
        match r with
        | [] => inr UnexpectedEnd
        | ch2 :: r2 =>
            if negb (is_continuation ch2)
               || (if (ch2 <? 0x90)%N then (ch =? 0xF0)%N else (ch =? 0xF4)%N)
            then inr (InvalidContinuation 1)
            else match r2 with
                 | [] => inr UnexpectedEnd
                 | ch3 :: r3 =>
                     if negb (is_continuation ch3)
                     then inr (InvalidContinuation 2)
                     else match r3 with
                          | [] => inr UnexpectedEnd
                          | ch4 :: _ =>
                              if is_continuation ch4 then inl 4
                              else inr (InvalidContinuation 3)
                          end
                 end
        end
      else inr InvalidStart
  end.

(** Scan from position [pos]; [skip] bytes of an accepted sequence are still
    to be passed over.  Returns the first fault and where it starts. *)
Fixpoint utf8_scan (skip pos : nat) (l : list N) : option (nat * N * utf8_fault) :=
  match l with
  | [] => None
  | b :: r =>
      match skip with
      | S k => utf8_scan k (S pos) r
      | O =>
          match utf8_head l with
          | inl k => utf8_scan (k - 1) (S pos) r
          | inr f => Some (pos, b, f)
          end
      end
  end.

Definition hex_digit (n : N) : string :=
  String (ascii_of_N (if (n <? 10)%N then (48 + n)%N else (87 + n)%N)) EmptyString.

(** [str(e)] of the [UnicodeDecodeError] for a fault at [start]. *)
Definition unicode_error_text (total start : nat) (b : N) (f : utf8_fault) : string :=
  let stop := match f with
              | InvalidStart => start + 1
              | InvalidContinuation n => start + n
              | UnexpectedEnd => total
              end in
  let reason := match f with
                | InvalidStart => "invalid start byte"
                | InvalidContinuation _ => "invalid continuation byte"
                | UnexpectedEnd => "unexpected end of data"
                end in
  if decide (stop = start + 1) then
    "'utf-8' codec can't decode byte 0x" +:+ hex_digit (b / 16) +:+ hex_digit (b mod 16)
      +:+ " in position " +:+ str_nat start +:+ ": " +:+ reason
  else
    "'utf-8' codec can't decode bytes in position " +:+ str_nat start +:+ "-"
      +:+ str_nat (stop - 1) +:+ ": " +:+ reason.

(** The decoded text, or the text of the exception. *)
Definition decode (bs : list byte) : string + string :=
  match utf8_scan 0 0 (map Byte.to_N bs) with
  | None => inl (string_of_list_byte bs)
  | Some (start, b, f) => inr (unicode_error_text (length bs) start b f)
  end.

End Py.

(** ** The host, the file system and the environment *)

Inductive level := INFO | WARN | ERROR.

(** A host record: its identifier, its attributes and its content. *)
Record flowfile := FlowFile {
  getUuid : string;
  attributes : gmap string string;
  content : list byte
}.

Definition getAttribute (ff : flowfile) (name : string) : option string :=
  attributes ff !! name.

(** What the handler does to the outside, in the order it does it.  A call
    is recorded when it has completed; a call that raises leaves no event. *)
Inductive event :=
| Log (lvl : level) (msg : string)
| SessionRemove (ff : flowfile)
| GetTempFile (prefix extn path : string)
| SubprocessRun (cmd : list string)
| SessionCreate (ff : flowfile)
| SessionPutAttribute (name value : string)
| SessionWrite (data : list byte)
| OsRemove (path : string)
| SessionTransfer (ff : flowfile) (relation : string).

Record world := World {
  fs : gmap string (list byte);     (* the files on disk, by path *)
  trace : list event
}.

(** An instance of [Exception], by its [str(e)]. *)
Inductive pyexn := Exception (text : string).

Definition exn_text (e : pyexn) : string := let 'Exception t := e in t.

Inductive result (A : Type) :=
| Returns (a : A)
| Raises (e : pyexn).
Arguments Returns {A} a.
Arguments Raises {A} e.

(** What [subprocess.run(..., check=False)] gives back once the tool has
    exited, and what the tool did to its output path ([-y]: it overwrites).
    The captured standard output is never read and is left out. *)
Record completed_process := CompletedProcess {
  returncode : Z;
  stderr : list byte;
  tool_writes : option (list byte)
}.

(** The answers of the outside world during the iteration of one index. *)
Record iteration_env := IterationEnv {
  (* getTempFile: the path, and whether it creates the (empty) file, as the
     placeholder does *)
  env_getTempFile : result (string * bool);
  env_run : result completed_process;
  env_create : result flowfile;
  env_putAttribute : nat -> option pyexn;   (* the five calls, 0..4 *)
  env_write : option pyexn;
  env_transfer : option pyexn
}.

Record environment := Environment {
  env_remove : option pyexn;
  env_iteration : nat -> iteration_env
}.

(** ** State and exceptions *)

Definition M (A : Type) : Type := world -> result A * world.

Definition ret {A} (a : A) : M A := fun w => (Returns a, w).

Definition raise {A} (e : pyexn) : M A := fun w => (Raises e, w).

Definition bind {A B} (m : M A) (k : A -> M B) : M B :=
  fun w =>
    match m w with
    | (Returns a, w') => k a w'
    | (Raises e, w') => (Raises e, w')
    end.

(** [try: m  except Exception as e: h e] *)
Definition try_except {A} (m : M A) (h : pyexn -> M A) : M A :=
  fun w =>
    match m w with
    | (Returns a, w') => (Returns a, w')
    | (Raises e, w') => h e w'
    end.

#[global] Instance M_ret : MRet M := @ret.
#[global] Instance M_bind : MBind M := fun A B k m => bind m k.

Definition emit (ev : event) : M unit :=
  fun w => (Returns tt, World (fs w) (trace w ++ [ev])).

(** A call that may raise: the environment says whether it does. *)
Definition call (outcome : option pyexn) (ev : event) : M unit :=
  match outcome with
  | Some e => raise e
  | None => emit ev
  end.

Definition logInfo (msg : string) : M unit := emit (Log INFO msg).
Definition logError (msg : string) : M unit := emit (Log ERROR msg).
Definition logWarn (msg : string) : M unit := emit (Log WARN msg).

(** *** The file system *)

Definition os_path_exists (path : string) : M bool :=
  fun w => (Returns (bool_decide (is_Some (fs w !! path))), w).

Definition no_such_file (path : string) : pyexn :=
  Exception ("[Errno 2] No such file or directory: '" +:+ path +:+ "'").

Definition os_path_getsize (path : string) : M nat :=
  fun w =>
    match fs w !! path with
    | Some data => (Returns (length data), w)
    | None => (Raises (no_such_file path), w)
    end.

Definition os_remove (path : string) : M unit :=
  fun w =>
    match fs w !! path with
    | Some _ => (Returns tt, World (delete path (fs w)) (trace w ++ [OsRemove path]))
    | None => (Raises (no_such_file path), w)
    end.

(** [open(path, 'rb')] and reading the file to its end. *)
Definition read_file (path : string) : M (list byte) :=
  fun w =>
    match fs w !! path with
    | Some data => (Returns data, w)
    | None => (Raises (no_such_file path), w)
    end.

(** [if os.path.exists(path): os.remove(path)] *)
Definition remove_if_exists (path : string) : M unit :=
  found ← os_path_exists path;
  if (found : bool) then os_remove path else ret tt.

(** *** The calls answered by the environment *)

Definition getTempFile (e : iteration_env) (prefix extn : string) : M string :=
  match env_getTempFile e with
  | Raises x => raise x
  | Returns (path, creates) =>
      fun w =>
        (Returns path,
         World (if (creates : bool) then <[path := []]> (fs w) else fs w)
               (trace w ++ [GetTempFile prefix extn path]))
  end.

(** The files once the tool has exited. *)
Definition fs_after_tool (files : gmap string (list byte)) (out : string)
    (cp : completed_process) : gmap string (list byte) :=
  match tool_writes cp with
  | Some data => <[out := data]> files
  | None => files
  end.

Definition subprocess_run (e : iteration_env) (cmd : list string) (out : string)
  : M completed_process :=
  match env_run e with
  | Raises x => raise x
  | Returns cp =>
      fun w =>
        (Returns cp,
         World (fs_after_tool (fs w) out cp) (trace w ++ [SubprocessRun cmd]))
  end.

Definition session_remove (env : environment) (ff : flowfile) : M unit :=
  call (env_remove env) (SessionRemove ff).

Definition session_create (e : iteration_env) : M flowfile :=
  match env_create e with
  | Raises x => raise x
  | Returns ff => emit (SessionCreate ff) ;; ret ff
  end.

Definition session_putAttribute (e : iteration_env) (n : nat)
    (ff : flowfile) (name value : string) : M flowfile :=
  call (env_putAttribute e n) (SessionPutAttribute name value) ;;
  ret (FlowFile (getUuid ff) (<[name := value]> (attributes ff)) (content ff)).

(** [session.write(ff, callback)] with the handler's [write_mp3_content]
    inlined: the callback opens the temporary file and the output stream
    takes all of it.  The record is filled in place; the embedding hands the
    filled record back. *)
Definition session_write (e : iteration_env) (ff : flowfile) (path : string)
  : M flowfile :=
  data ← read_file path;
  call (env_write e) (SessionWrite data) ;;
  ret (FlowFile (getUuid ff) (attributes ff) data).

Definition session_transfer (e : iteration_env) (ff : flowfile) (relation : string)
  : M unit :=
  call (env_transfer e) (SessionTransfer ff relation).

(** [result.stderr.decode()] *)
Definition bytes_decode (bs : list byte) : M string :=
  match Py.decode bs with
  | inl s => ret s
  | inr t => raise (Exception t)
  end.

(** ** The handler *)

(** [CHUNK_DURATION = 30.0], in seconds. *)
Definition CHUNK_DURATION : nat := 30.

(** How the [try] block leaves an iteration: falling off its end (the index
    has been advanced), [break], or, from the [except] block, [return]. *)
Inductive flow := Continue | Break | Return.

Definition ffmpeg_command (temp_mpg_path temp_mp3_path : string) (start_time : nat)
  : list string :=
  [ "ffmpeg";
    "-ss"; Py.str_float start_time;
    "-i"; temp_mpg_path;
    "-t"; Py.str_float CHUNK_DURATION;
    "-vn";
    "-acodec"; "libmp3lame";
    "-q:a"; "2";
    "-y";
    temp_mp3_path ].

Definition chunk_filename (base_filename : string) (segment_index : nat) : string :=
  base_filename +:+ "_chunk_" +:+ Py.fmt_03d segment_index +:+ ".mp3".

(** The body of the [try] statement. *)
Definition try_block (e : iteration_env) (source_link base_filename : string)
    (segment_index : nat) (temp_mp3_path : string) : M flow :=
  let start_time := segment_index * CHUNK_DURATION in
  logInfo ("Executing FFmpeg for segment " +:+ Py.str_nat segment_index
           +:+ " (Start: " +:+ Py.fmt_1f start_time
           +:+ "s, Duration: " +:+ Py.str_float CHUNK_DURATION +:+ "s)");;
  result ← subprocess_run e (ffmpeg_command source_link temp_mp3_path start_time)
             temp_mp3_path;
  if decide (returncode result ≠ 0%Z) then
    (found ← os_path_exists temp_mp3_path;
     final ← (if (found : bool)
              then size ← os_path_getsize temp_mp3_path;
                   ret (bool_decide (1024 < size))
              else ret false);
     if (final : bool) then
       logInfo "FFmpeg returned non-zero, but final file segment created. Assuming end of stream."
     else if decide (segment_index = 0) then
       text ← bytes_decode (stderr result);
       logError ("FFmpeg failed on the first segment. Error: " +:+ text);;
       raise (Exception ("FFmpeg failed on first segment with exit code "
                         +:+ Py.str_int (returncode result)))
     else ret tt);;
    ret Break
  else
    found ← os_path_exists temp_mp3_path;
    invalid ← (if negb found then ret true
               else size ← os_path_getsize temp_mp3_path;
                    ret (bool_decide (size < 1024)));
    if (invalid : bool) then
      logWarn ("Segment " +:+ Py.str_nat segment_index
               +:+ " extraction failed (file too small/non-existent). Breaking loop.");;
      ret Break
    else
      size ← os_path_getsize temp_mp3_path;
      logInfo ("Segment " +:+ Py.str_nat segment_index
               +:+ " successfully extracted. MP3 file size: " +:+ Py.str_nat size
               +:+ " bytes");;
      mp3_flowfile ← session_create e;
      mp3_flowfile ← session_putAttribute e 0 mp3_flowfile "filename"
                       (chunk_filename base_filename segment_index);
      mp3_flowfile ← session_putAttribute e 1 mp3_flowfile "mime.type" "audio/mp3";
      mp3_flowfile ← session_putAttribute e 2 mp3_flowfile "original.link" source_link;
      mp3_flowfile ← session_putAttribute e 3 mp3_flowfile "audio.chunk.start"
                       (Py.str_float start_time);
      mp3_flowfile ← session_putAttribute e 4 mp3_flowfile "audio.chunk.duration"
                       (Py.str_float CHUNK_DURATION);
      mp3_flowfile ← session_write e mp3_flowfile temp_mp3_path;
      remove_if_exists temp_mp3_path;;
      logInfo ("Segment " +:+ Py.str_nat segment_index
               +:+ " transferred to 'success' relation.");;
      session_transfer e mp3_flowfile "success";;
      ret Continue.

(** The [except Exception as e] block. *)
Definition except_block (temp_mp3_path : string) (e : pyexn) : M flow :=
  logError ("Critical Error during segment extraction: " +:+ exn_text e);;
  remove_if_exists temp_mp3_path;;
  ret Return.

(** One pass through the body of [while True]. *)
Definition iteration (e : iteration_env) (source_link base_filename : string)
    (segment_index : nat) : M flow :=
  temp_mp3_path ← getTempFile e ("segment-" +:+ Py.fmt_03d segment_index) ".mp3";
  try_except
    (try_block e source_link base_filename segment_index temp_mp3_path)
    (except_block temp_mp3_path).

(** How the loop ends: by [break] (with the value [segment_index] then has),
    by the [return] of the [except] block, or because the fuel ran out. *)
Inductive loop_exit :=
| Broke (segment_index : nat)
| Returned
| Exhausted (segment_index : nat).

Fixpoint segment_loop (fuel : nat) (env : environment)
    (source_link base_filename : string) (segment_index : nat) : M loop_exit :=
  match fuel with
  | O => ret (Exhausted segment_index)
  | S fuel' =>
      f ← iteration (env_iteration env segment_index) source_link base_filename
            segment_index;
      match f with
      | Continue => segment_loop fuel' env source_link base_filename (S segment_index)
      | Break => ret (Broke segment_index)
      | Return => ret Returned
      end
  end.

(** [a or b] on attribute values: [a] when it is neither [None] nor empty. *)
Definition truthy (a : option string) : option string :=
  if Py.falsy a then None else a.

(** The source link the handler settles on. *)
Definition resolve_source_link (ff : flowfile) : string :=
  match truthy (getAttribute ff "idol.reference") with
  | Some source_link => source_link
  | None =>
      match truthy (getAttribute ff "filename") with
      | Some filename => filename
      | None => getUuid ff
      end
  end.

(** The base name of the output files. *)
Definition resolve_base_filename (ff : flowfile) : string :=
  match truthy (getAttribute ff "filename") with
  | Some original_filename =>
      if Py.has_dot original_filename then Py.rsplit_dot_head original_filename
      else getUuid ff
  | None => getUuid ff
  end.

Inductive completion := Done | OutOfFuel.

Definition handler (env : environment) (fuel : nat) (flowfile : option flowfile)
  : M completion :=
  logInfo "Starting optimized MPG to 30-second MP3 chunks extraction process (Diagnostic Bypass Active)...";;
  match flowfile with
  | None =>
      logError "Input FlowFile is None.";;
      ret Done
  | Some flowfile =>
      (if Py.falsy (getAttribute flowfile "idol.reference")
       then logError "Required attribute 'idol.reference' (source link) is missing."
       else ret tt);;
      let source_link := resolve_source_link flowfile in
      let temp_mpg_path := source_link in
      let base_filename := resolve_base_filename flowfile in
      logInfo ("DIAGNOSTIC BYPASS: Using source file directly: " +:+ temp_mpg_path);;
      session_remove env flowfile;;
      out ← segment_loop fuel env source_link base_filename 0;
      match out with
      | Broke segment_index =>
          (if decide (segment_index = 0)
           then logError "No MP3 segments were successfully created and transferred."
           else logInfo ("MP3 chunking complete. Total of " +:+ Py.str_nat segment_index
                         +:+ " FlowFiles transferred to success."));;
          logInfo "Process finished.";;
          ret Done
      | Returned => ret Done
      | Exhausted _ => ret OutOfFuel
      end
  end.

(** ** Observations on a run *)

(** The records handed to [session.transfer], in order, with the relation
    each went to. *)
Definition transfers (t : list event) : list (flowfile * string) :=
  omap (fun ev => match ev with
                  | SessionTransfer ff relation => Some (ff, relation)
                  | _ => None
                  end) t.

(** The attributes the handler sets on the record of segment [i]. *)
Definition is_chunk_record (source_link base_filename : string) (i : nat)
    (ff : flowfile) : Prop :=
  attributes ff !! "filename"
    = Some (base_filename +:+ "_chunk_" +:+ Py.fmt_03d i +:+ ".mp3")
  ∧ attributes ff !! "mime.type" = Some "audio/mp3"
  ∧ attributes ff !! "original.link" = Some source_link
  ∧ attributes ff !! "audio.chunk.start" = Some (Py.str_float (i * 30))
  ∧ attributes ff !! "audio.chunk.duration" = Some "30.0".

(** The record the handler hands over for segment [i], made from the record
    [created] by the host and the bytes [data] of the artifact. *)
Definition chunk_record (source_link base_filename : string) (i : nat)
    (created : flowfile) (data : list byte) : flowfile :=
  FlowFile (getUuid created)
    (<["audio.chunk.duration" := Py.str_float CHUNK_DURATION]>
       (<["audio.chunk.start" := Py.str_float (i * CHUNK_DURATION)]>
          (<["original.link" := source_link]>
             (<["mime.type" := "audio/mp3"]>
                (<["filename" := chunk_filename base_filename i]>
                   (attributes created))))))
    data.

(** The world once [getTempFile] has answered. *)
Definition after_alloc (w : world) (i : nat) (path : string) (creates : bool) : world :=
  World (if creates then <[path := []]> (fs w) else fs w)
        (trace w ++ [GetTempFile ("segment-" +:+ Py.fmt_03d i) ".mp3" path]).

(** The artifact at the temporary path once the tool has exited, seen from
    the world in which the iteration starts. *)
Definition artifact_after (w : world) (path : string) (creates : bool)
    (cp : completed_process) : option (list byte) :=
  match tool_writes cp with
  | Some data => Some data
  | None => if creates then Some [] else fs w !! path
  end.

(** The two size tests of the handler.  After a zero exit an artifact is
    refused when it is missing or smaller than 1024 bytes; after a non-zero
    exit it counts as a final segment when it is larger than 1024 bytes. *)
Definition below_threshold (artifact : option (list byte)) : Prop :=
  match artifact with
  | None => True
  | Some data => length data < 1024
  end.

Definition above_threshold (artifact : option (list byte)) : Prop :=
  match artifact with
  | None => False
  | Some data => 1024 < length data
  end.

(** *** The events of one iteration *)

Definition executing_log (i : nat) : event :=
  Log INFO ("Executing FFmpeg for segment " +:+ Py.str_nat i
            +:+ " (Start: " +:+ Py.fmt_1f (i * CHUNK_DURATION)
            +:+ "s, Duration: " +:+ Py.str_float CHUNK_DURATION +:+ "s)").

Definition run_event (source_link path : string) (i : nat) : event :=
  SubprocessRun (ffmpeg_command source_link path (i * CHUNK_DURATION)).

Definition final_segment_log : event :=
  Log INFO "FFmpeg returned non-zero, but final file segment created. Assuming end of stream.".

Definition first_segment_log (text : string) : event :=
  Log ERROR ("FFmpeg failed on the first segment. Error: " +:+ text).

Definition first_segment_exn (rc : Z) : pyexn :=
  Exception ("FFmpeg failed on first segment with exit code " +:+ Py.str_int rc).

Definition too_small_log (i : nat) : event :=
  Log WARN ("Segment " +:+ Py.str_nat i
            +:+ " extraction failed (file too small/non-existent). Breaking loop.").

Definition extracted_log (i size : nat) : event :=
  Log INFO ("Segment " +:+ Py.str_nat i
            +:+ " successfully extracted. MP3 file size: " +:+ Py.str_nat size
            +:+ " bytes").

Definition critical_error (e : pyexn) : event :=
  Log ERROR ("Critical Error during segment extraction: " +:+ exn_text e).

(** The calls of the emission of segment [i], in the order of the source:
    create, five attributes, write, delete the artifact, log, transfer. *)
Definition emission_events (source_link base_filename : string) (i : nat)
    (path : string) (created : flowfile) (data : list byte) : list event :=
  [ SessionCreate created;
    SessionPutAttribute "filename" (chunk_filename base_filename i);
    SessionPutAttribute "mime.type" "audio/mp3";
    SessionPutAttribute "original.link" source_link;
    SessionPutAttribute "audio.chunk.start" (Py.str_float (i * CHUNK_DURATION));
    SessionPutAttribute "audio.chunk.duration" (Py.str_float CHUNK_DURATION);
    SessionWrite data;
    OsRemove path;
    Log INFO ("Segment " +:+ Py.str_nat i +:+ " transferred to 'success' relation.");
    SessionTransfer (chunk_record source_link base_filename i created data) "success" ].

(** The first call of the emission that raises, if any, with the number of
    emission events completed before it. *)
Definition emission_failure (e : iteration_env) : option (nat * pyexn) :=
  match env_create e with
  | Raises x => Some (0, x)
  | Returns _ =>
  match env_putAttribute e 0 with Some x => Some (1, x) | None =>
  match env_putAttribute e 1 with Some x => Some (2, x) | None =>
  match env_putAttribute e 2 with Some x => Some (3, x) | None =>
  match env_putAttribute e 3 with Some x => Some (4, x) | None =>
  match env_putAttribute e 4 with Some x => Some (5, x) | None =>
  match env_write e with Some x => Some (6, x) | None =>
  match env_transfer e with Some x => Some (9, x) | None => None
  end end end end end end end end.

Definition created_record (e : iteration_env) : flowfile :=
  match env_create e with
  | Returns ff => ff
  | Raises _ => FlowFile "" ∅ []
  end.

(** *** The state machine of the [try] block

    Every way the [try] block can end, from the world [w] in which it starts
    (the temporary path [p] has been allocated): the answer and the world it
    ends in. *)
Inductive try_block_spec (e : iteration_env) (src base : string) (i : nat)
    (p : string) (w : world) : result flow -> world -> Prop :=
| tb_run_raises x :
    env_run e = Raises x ->
    try_block_spec e src base i p w (Raises x)
      (World (fs w) (trace w ++ [executing_log i]))
| tb_final_segment cp :
    env_run e = Returns cp -> returncode cp ≠ 0%Z ->
    above_threshold (fs_after_tool (fs w) p cp !! p) ->
    try_block_spec e src base i p w (Returns Break)
      (World (fs_after_tool (fs w) p cp)
         (trace w ++ [executing_log i; run_event src p i; final_segment_log]))
| tb_first_segment_failed cp text :
    env_run e = Returns cp -> returncode cp ≠ 0%Z ->
    ¬ above_threshold (fs_after_tool (fs w) p cp !! p) ->
    i = 0 -> Py.decode (stderr cp) = inl text ->
    try_block_spec e src base i p w (Raises (first_segment_exn (returncode cp)))
      (World (fs_after_tool (fs w) p cp)
         (trace w ++ [executing_log i; run_event src p i; first_segment_log text]))
| tb_first_segment_undecodable cp t :
    env_run e = Returns cp -> returncode cp ≠ 0%Z ->
    ¬ above_threshold (fs_after_tool (fs w) p cp !! p) ->
    i = 0 -> Py.decode (stderr cp) = inr t ->
    try_block_spec e src base i p w (Raises (Exception t))
      (World (fs_after_tool (fs w) p cp)
         (trace w ++ [executing_log i; run_event src p i]))
| tb_end_of_stream cp :
    env_run e = Returns cp -> returncode cp ≠ 0%Z ->
    ¬ above_threshold (fs_after_tool (fs w) p cp !! p) ->
    i ≠ 0 ->
    try_block_spec e src base i p w (Returns Break)
      (World (fs_after_tool (fs w) p cp)
         (trace w ++ [executing_log i; run_event src p i]))
| tb_too_small cp :
    env_run e = Returns cp -> returncode cp = 0%Z ->
    below_threshold (fs_after_tool (fs w) p cp !! p) ->
    try_block_spec e src base i p w (Returns Break)
      (World (fs_after_tool (fs w) p cp)
         (trace w ++ [executing_log i; run_event src p i; too_small_log i]))
| tb_emission_raises cp data n x :
    env_run e = Returns cp -> returncode cp = 0%Z ->
    fs_after_tool (fs w) p cp !! p = Some data -> 1024 ≤ length data ->
    emission_failure e = Some (n, x) ->
    try_block_spec e src base i p w (Raises x)
      (World (if decide (n = 9) then delete p (fs_after_tool (fs w) p cp)
              else fs_after_tool (fs w) p cp)
         (trace w ++ [executing_log i; run_event src p i;
                      extracted_log i (length data)]
            ++ take n (emission_events src base i p (created_record e) data)))
| tb_accepted cp data :
    env_run e = Returns cp -> returncode cp = 0%Z ->
    fs_after_tool (fs w) p cp !! p = Some data -> 1024 ≤ length data ->
    emission_failure e = None ->
    try_block_spec e src base i p w (Returns Continue)
      (World (delete p (fs_after_tool (fs w) p cp))
         (trace w ++ [executing_log i; run_event src p i;
                      extracted_log i (length data)]
            ++ emission_events src base i p (created_record e) data)).


(** *** The events around the loop *)

(** What the handler logs while it resolves its input. *)
Definition input_events (ff : flowfile) : list event :=
  Log INFO "Starting optimized MPG to 30-second MP3 chunks extraction process (Diagnostic Bypass Active)..."
  :: (if Py.falsy (getAttribute ff "idol.reference")
      then [Log ERROR "Required attribute 'idol.reference' (source link) is missing."]
      else [])
  ++ [Log INFO ("DIAGNOSTIC BYPASS: Using source file directly: "
                +:+ resolve_source_link ff)].

(** What it logs once the loop has been left by [break]. *)
Definition summary_events (segment_index : nat) : list event :=
  [ if decide (segment_index = 0)
    then Log ERROR "No MP3 segments were successfully created and transferred."
    else Log INFO ("MP3 chunking complete. Total of " +:+ Py.str_nat segment_index
                   +:+ " FlowFiles transferred to success.");
    Log INFO "Process finished." ].

(** The record emitted for segment [j] in environment [env]. *)
Definition emitted_at (env : environment) (src base : string) (j : nat)
    (r : flowfile * string) : Prop :=
  ∃ created data,
    env_create (env_iteration env j) = Returns created
    ∧ 1024 ≤ length data
    ∧ r = (chunk_record src base j created data, "success").

(** ** Concrete runs

    Environments and inputs on which the handler is evaluated below. *)

(** [n] bytes of content. *)
Definition blob (n : nat) : list byte := replicate n x00.

(** An input record with both attributes. *)
Definition movie : flowfile :=
  FlowFile "3f2a-77"
    (<["filename" := "movie.mpg"]> (<["idol.reference" := "/data/movie.mpg"]> ∅))
    [].

(** The record the host hands out on [session.create()]. *)
Definition fresh : flowfile := FlowFile "new" ∅ [].

Definition temp_path (i : nat) : string :=
  "/tmp/segment-" +:+ Py.fmt_03d i +:+ ".mp3".

(** An iteration in which no call raises: the tool exits with [rc], has
    written [err] to its standard error, and leaves [out] at the temporary
    path, which [getTempFile] has created empty. *)
Definition quiet (i : nat) (rc : Z) (err : list byte) (out : option (list byte))
  : iteration_env :=
  IterationEnv (Returns (temp_path i, true))
    (Returns (CompletedProcess rc err out))
    (Returns fresh) (fun _ => None) None None.

Definition empty_world : world := World ∅ [].

(** Segments 0..2 succeed; at index 3 the tool exits non-zero and leaves a
    2000-byte artifact. *)
Definition env_final_segment : environment :=
  Environment None
    (fun i => if decide (i < 3) then quiet i 0 [] (Some (blob 2000))
              else quiet i 1 [] (Some (blob 2000))).

(** At index 0 the tool exits with zero and leaves a 500-byte artifact. *)
Definition env_small_artifact : environment :=
  Environment None (fun i => quiet i 0 [] (Some (blob 500))).

(** Segment 0 succeeds; at index 1 the tool exits non-zero and writes
    nothing. *)
Definition env_one_segment : environment :=
  Environment None
    (fun i => if decide (i < 1) then quiet i 0 [] (Some (blob 2000))
              else quiet i 1 [] None).



(** At index 0 the tool exits non-zero, writes nothing, and its standard
    error is the single byte 0xff. *)
Definition env_undecodable : environment :=
  Environment None (fun i => quiet i 1 [xff] None).

(** At index 0 the tool exits non-zero, writes nothing, and says why. *)
Definition env_first_fails : environment :=
  Environment None
    (fun i => quiet i 1 (list_byte_of_string "No such file") None).

(** The [ERROR] lines of a trace. *)
Definition errors (t : list event) : list string :=
  omap (fun ev => match ev with Log ERROR msg => Some msg | _ => None end) t.

(** The last [n] events of a trace. *)
Definition recent (n : nat) (t : list event) : list event :=
  drop (length t - n) t.
(** ** Further observations on a run *)

(** The commands of the calls of [subprocess.run] that returned, in order. *)
Definition runs (t : list event) : list (list string) :=
  omap (fun ev => match ev with SubprocessRun cmd => Some cmd | _ => None end) t.

(** The records [session.create] has returned, in order. *)
Definition creations (t : list event) : list flowfile :=
  omap (fun ev => match ev with SessionCreate ff => Some ff | _ => None end) t.

(** The records [session.remove] has disposed of, in order. *)
Definition removals (t : list event) : list flowfile :=
  omap (fun ev => match ev with SessionRemove ff => Some ff | _ => None end) t.

(** The command of the iteration of index [j], when the iteration gets as
    far as running the tool. *)
Definition command_at (env : environment) (src : string) (j : nat)
  : option (list string) :=
  match env_getTempFile (env_iteration env j), env_run (env_iteration env j) with
  | Returns (p, _), Returns _ => Some (ffmpeg_command src p (j * CHUNK_DURATION))
  | _, _ => None
  end.

(** The names of the five attributes the handler sets. *)
Definition chunk_attribute_names : list string :=
  [ "filename"; "mime.type"; "original.link"; "audio.chunk.start";
    "audio.chunk.duration" ].


(** [getTempFile] never hands out the same path for two indices. *)
Definition unique_paths (env : environment) : Prop :=
  ∀ i j p c p' c',
    env_getTempFile (env_iteration env i) = Returns (p, c) →
    env_getTempFile (env_iteration env j) = Returns (p', c') →
    i ≠ j → p ≠ p'.


(** [session.remove] raises. *)
Definition env_remove_fails : environment :=
  Environment (Some (Exception "session closed"))
    (fun i => quiet i 0 [] (Some (blob 2000))).

(** * Properties *)

(** ** Formatting *)

Example fmt_03d_pads : Py.fmt_03d 7 = "007" ∧ Py.fmt_03d 42 = "042".
Proof. split; reflexivity. Qed.

Example fmt_03d_wide : Py.fmt_03d 123 = "123" ∧ Py.fmt_03d 1234 = "1234".
Proof. split; reflexivity. Qed.

Example str_float_duration : Py.str_float CHUNK_DURATION = "30.0".
Proof. reflexivity. Qed.

Example str_float_start : Py.str_float (3 * CHUNK_DURATION) = "90.0".
Proof. reflexivity. Qed.

Example rsplit_last_dot : Py.rsplit_dot_head "a.tar.gz" = "a.tar".
Proof. reflexivity. Qed.

Example rsplit_leading_dot : Py.rsplit_dot_head ".mp3" = "".
Proof. reflexivity. Qed.

Example decode_ascii :
  Py.decode (list_byte_of_string "No such file") = inl "No such file".
Proof. reflexivity. Qed.

Example decode_two_bytes : Py.decode [xc3; xa9] = inl (string_of_list_byte [xc3; xa9]).
Proof. reflexivity. Qed.

Example decode_invalid_start :
  Py.decode [xff]
  = inr "'utf-8' codec can't decode byte 0xff in position 0: invalid start byte".
Proof. reflexivity. Qed.

Example decode_truncated :
  Py.decode [x41; xe2; x82]
  = inr "'utf-8' codec can't decode bytes in position 1-2: unexpected end of data".
Proof. reflexivity. Qed.

Lemma string_length_app s t :
  String.length (s +:+ t) = String.length s + String.length t.
Proof. induction s as [|ch s IH]; simpl; [done|]. by rewrite IH. Qed.

Lemma string_app_inv_tail s1 s2 t : s1 +:+ t = s2 +:+ t → s1 = s2.
Proof.
  revert s2. induction s1 as [|ch s1 IH]; intros [|ch2 s2] H.
  - done.
  - apply (f_equal String.length) in H.
    rewrite !string_length_app in H. simpl in H. lia.
  - apply (f_equal String.length) in H.
    rewrite !string_length_app in H. simpl in H. lia.
  - change (String ch (s1 +:+ t) = String ch2 (s2 +:+ t)) in H.
    injection H as -> H. f_equal. by apply IH.
Qed.

Lemma str_nat_inj a b : Py.str_nat a = Py.str_nat b → a = b.
Proof.
  assert (Hnn : ∀ n, Nat.to_uint n ≠ Decimal.Nil).
  { intros n. rewrite <- (DecimalNat.Unsigned.of_to n) at 1.
    rewrite DecimalNat.Unsigned.to_of. apply DecimalFacts.unorm_nonnil. }
  unfold Py.str_nat. intros H.
  apply (f_equal NilZero.uint_of_string) in H.
  rewrite !NilZero.usu in H by apply Hnn.
  injection H as H.
  apply (f_equal Nat.of_uint) in H.
  by rewrite !DecimalNat.Unsigned.of_to in H.
Qed.

(** The start attribute tells the segments apart: a record is the record of
    one index only. *)
Lemma chunk_record_index src base src' base' i j ff :
  is_chunk_record src base i ff → is_chunk_record src' base' j ff → i = j.
Proof.
  intros (_ & _ & _ & Hi & _) (_ & _ & _ & Hj & _).
  rewrite Hi in Hj. injection Hj as Hj.
  apply string_app_inv_tail, str_nat_inj in Hj. lia.
Qed.
(** ** The [try] block follows its state machine *)

Lemma transfers_app t1 t2 : transfers (t1 ++ t2) = transfers t1 ++ transfers t2.
Proof. apply omap_app. Qed.

Ltac unfold_ops :=
  unfold try_block,
    subprocess_run, session_create, session_putAttribute, session_write,
    session_transfer, remove_if_exists, os_path_exists, os_path_getsize,
    os_remove, read_file, bytes_decode, call, logInfo, logError, logWarn,
    emit, mbind, mret, M_bind, M_ret, bind, ret, raise in *.

Ltac crunch := repeat (first [ progress simplify_eq/= | case_match ]).

Ltac tidy :=
  repeat match goal with
    | H : bool_decide _ = true |- _ => apply bool_decide_eq_true in H
    | H : bool_decide _ = false |- _ => apply bool_decide_eq_false in H
    | H : negb _ = true |- _ => apply negb_true_iff in H
    | H : negb _ = false |- _ => apply negb_false_iff in H
    | H : ¬ is_Some _ |- _ => apply eq_None_not_Some in H
    | H : is_Some _ |- _ => destruct H as [? H]
    | H : ?m !! ?p = _, H' : ?m !! ?p = _ |- _ => rewrite H in H'; simplify_eq
    end.

Ltac side :=
  unfold emission_failure, above_threshold, below_threshold; simpl;
  repeat match goal with
    | H : ?m !! ?p = _ |- context [?m !! ?p] => rewrite H
    | H : ?f _ = _ |- context [match ?f _ with _ => _ end] => rewrite H
    end;
  simpl; first [ assumption | reflexivity | lia | tauto ].

Ltac raised_at n :=
  match goal with
  | H : _ !! _ = Some ?d |- try_block_spec ?e ?src ?base ?i ?p ?w (Raises ?x) _ =>
      apply (tb_emission_raises e src base i p w _ d n x); side
  end.

Lemma try_block_sound e src base i p w r w' :
  try_block e src base i p w = (r, w') →
  try_block_spec e src base i p w r w'.
Proof.
  destruct e as [alloc run create put wr tr].
  intros H. unfold_ops.
  crunch.
  all: tidy.
  all: rewrite <- ?app_assoc; simpl.
  all: solve
    [ eapply tb_run_raises; side
    | eapply tb_final_segment; side
    | eapply tb_first_segment_failed; side
    | eapply tb_first_segment_undecodable; side
    | eapply tb_end_of_stream; side
    | eapply tb_too_small; side
    | eapply tb_accepted; side
    | raised_at 0 | raised_at 1 | raised_at 2 | raised_at 3
    | raised_at 4 | raised_at 5 | raised_at 6 | raised_at 9 ].
Qed.

Lemma emission_failure_None e :
  emission_failure e = None →
  ∃ created, env_create e = Returns created ∧ created_record e = created
             ∧ env_write e = None ∧ env_transfer e = None.
Proof.
  unfold emission_failure, created_record.
  intros H. repeat case_match; simplify_eq. eauto.
Qed.

Lemma emission_failure_Some e n x :
  emission_failure e = Some (n, x) →
  n = 0 ∨ n = 1 ∨ n = 2 ∨ n = 3 ∨ n = 4 ∨ n = 5 ∨ n = 6 ∨ n = 9.
Proof.
  unfold emission_failure.
  intros H. repeat case_match; simplify_eq; tauto.
Qed.

Lemma except_block_eq p x w :
  except_block p x w =
    (Returns Return,
     World (delete p (fs w))
       (trace w ++ critical_error x
                   :: (if decide (is_Some (fs w !! p)) then [OsRemove p] else []))).
Proof.
  unfold except_block, remove_if_exists, os_path_exists, os_remove, logError,
    emit, critical_error, mbind, mret, M_bind, M_ret, bind, ret; simpl.
  destruct (fs w !! p) as [data|] eqn:Hp; simpl; rewrite ?Hp; simpl.
  - rewrite <- app_assoc. reflexivity.
  - rewrite delete_id by done. reflexivity.
Qed.

Lemma artifact_after_lookup w i p c cp :
  fs_after_tool (fs (after_alloc w i p c)) p cp !! p = artifact_after w p c cp.
Proof.
  unfold fs_after_tool, artifact_after, after_alloc; simpl.
  destruct (tool_writes cp); [apply lookup_insert_eq|].
  destruct c; [apply lookup_insert_eq|reflexivity].
Qed.

Lemma after_alloc_transfers w i p c :
  transfers (trace (after_alloc w i p c)) = transfers (trace w).
Proof. simpl. rewrite transfers_app. apply app_nil_r. Qed.

(** ** One iteration *)

Section Iteration.

Context (e : iteration_env) (src base : string) (i : nat).

(** What a pass through the [try] block adds to the transfers: the record
    of the segment when it is accepted, nothing otherwise. *)
Lemma try_block_spec_transfers p w r w' :
  try_block_spec e src base i p w r w' →
  match r with
  | Returns Continue =>
      ∃ cp data,
        env_run e = Returns cp ∧ returncode cp = 0%Z
        ∧ fs_after_tool (fs w) p cp !! p = Some data ∧ 1024 ≤ length data
        ∧ env_create e = Returns (created_record e)
        ∧ transfers (trace w') = transfers (trace w)
            ++ [(chunk_record src base i (created_record e) data, "success")]
  | _ => transfers (trace w') = transfers (trace w)
  end.
Proof.
  destruct 1; simpl; rewrite ?transfers_app, ?app_nil_r; try reflexivity.
  - match goal with H : emission_failure _ = _ |- _ =>
      apply emission_failure_Some in H; destruct_or!; subst; simpl
    end; rewrite ?app_nil_r; reflexivity.
  - match goal with H : emission_failure _ = _ |- _ =>
      apply emission_failure_None in H; destruct H as (created & Hc & <- & _)
    end.
    eexists _, _. split_and!; eauto.
Qed.



Lemma iteration_eq w :
  iteration e src base i w =
    match env_getTempFile e with
    | Raises x => (Raises x, w)
    | Returns (p, c) =>
        match try_block e src base i p (after_alloc w i p c) with
        | (Returns f, w2) => (Returns f, w2)
        | (Raises x, w2) => except_block p x w2
        end
    end.
Proof.
  unfold iteration, getTempFile, try_except, mbind, M_bind, bind, raise.
  destruct (env_getTempFile e) as [[p c]|x]; reflexivity.
Qed.


Lemma iteration_cases w :
  (∃ x, env_getTempFile e = Raises x ∧ iteration e src base i w = (Raises x, w))
  ∨ (∃ p c r2 w2,
       env_getTempFile e = Returns (p, c)
       ∧ try_block_spec e src base i p (after_alloc w i p c) r2 w2
       ∧ iteration e src base i w =
           match r2 with
           | Returns f => (Returns f, w2)
           | Raises x =>
               (Returns Return,
                World (delete p (fs w2))
                  (trace w2 ++ critical_error x
                     :: (if decide (is_Some (fs w2 !! p)) then [OsRemove p] else [])))
           end).
Proof.
  rewrite iteration_eq.
  destruct (env_getTempFile e) as [[p c]|x]; [right|left; eauto].
  destruct (try_block e src base i p (after_alloc w i p c)) as [r2 w2] eqn:H.
  apply try_block_sound in H.
  exists p, c, r2, w2. split_and!; [done..|].
  destruct r2; [reflexivity|apply except_block_eq].
Qed.

(** What one iteration adds to the transfers. *)
Lemma iteration_transfers w r w' :
  iteration e src base i w = (r, w') →
  match r with
  | Raises x => env_getTempFile e = Raises x ∧ w' = w
  | Returns Continue =>
      ∃ p c cp data created,
        env_getTempFile e = Returns (p, c) ∧ env_run e = Returns cp
        ∧ returncode cp = 0%Z
        ∧ artifact_after w p c cp = Some data ∧ 1024 ≤ length data
        ∧ env_create e = Returns created
        ∧ transfers (trace w') = transfers (trace w)
            ++ [(chunk_record src base i created data, "success")]
  | Returns _ => transfers (trace w') = transfers (trace w)
  end.
Proof.
  intros H.
  destruct (iteration_cases w)
    as [(x & Ha & Hi)|(p & c & r2 & w2 & Ha & Hs & Hi)];
    rewrite Hi in H; clear Hi.
  { simplify_eq. done. }
  pose proof (try_block_spec_transfers _ _ _ _ Hs) as Ht.
  pose proof (after_alloc_transfers w i p c) as Hpre.
  destruct r2 as [f|x]; simplify_eq.
  - destruct f.
    + destruct Ht as (cp & data & ? & ? & Hl & ? & ? & Ht).
      rewrite artifact_after_lookup in Hl. rewrite Hpre in Ht.
      eexists p, c, cp, data, _. split_and!; eauto.
    + congruence.
    + congruence.
  - simpl. rewrite transfers_app. simpl.
    destruct (decide _); simpl; rewrite app_nil_r; congruence.
Qed.

(** After a non-zero exit the iteration never emits, whatever the artifact:
    the branch that recognises a final segment only logs, and the [break]
    that follows it is not conditional. *)
Lemma nonzero_exit_never_emits w cp r w' :
  env_run e = Returns cp → returncode cp ≠ 0%Z →
  iteration e src base i w = (r, w') →
  r ≠ Returns Continue ∧ transfers (trace w') = transfers (trace w).
Proof.
  intros Hrun Hrc Hit. apply iteration_transfers in Hit.
  destruct r as [[]|x].
  - destruct Hit as (p & c & cp' & data & created & _ & Hrun' & Hz & _).
    rewrite Hrun in Hrun'. simplify_eq.
  - done.
  - done.
  - destruct Hit as [_ ->]. done.
Qed.

(** When the loop is left by [break], the file at the temporary path is
    what the tool left there: the [break] paths delete nothing. *)
Lemma break_leaves_artifact w p c cp w' :
  env_getTempFile e = Returns (p, c) → env_run e = Returns cp →
  iteration e src base i w = (Returns Break, w') →
  fs w' !! p = artifact_after w p c cp.
Proof.
  intros Halloc Hrun Hit.
  destruct (iteration_cases w)
    as [(x & Ha & Hi)|(p' & c' & r2 & w2 & Ha & Hs & Hi)];
    rewrite Hi in Hit; clear Hi; [discriminate|].
  rewrite Halloc in Ha. simplify_eq.
  inversion Hs; subst; clear Hs; try discriminate.
  all: injection Hit as <-.
  all: match goal with
       | H1 : env_run ?e = _, H2 : env_run ?e = _ |- _ =>
           rewrite H1 in H2; simplify_eq
       end.
  all: apply (artifact_after_lookup w i).
Qed.

End Iteration.

(** ** The loop *)

Lemma loop_step fuel env src base i w :
  segment_loop (S fuel) env src base i w =
    match iteration (env_iteration env i) src base i w with
    | (Returns Continue, w') => segment_loop fuel env src base (S i) w'
    | (Returns Break, w') => (Returns (Broke i), w')
    | (Returns Return, w') => (Returns Returned, w')
    | (Raises x, w') => (Raises x, w')
    end.
Proof.
  simpl. unfold mbind, M_bind, bind, ret.
  destruct (iteration _ _ _ _ _) as [[[]|x] w']; reflexivity.
Qed.

Lemma segment_loop_transfers fuel env src base i w r w' :
  segment_loop fuel env src base i w = (r, w') →
  ∃ n recs,
    transfers (trace w') = transfers (trace w) ++ recs
    ∧ Forall2 (emitted_at env src base) (seq i n) recs
    ∧ match r with
      | Returns (Broke k) | Returns (Exhausted k) => k = i + n
      | Returns Returned => True
      | Raises x => env_getTempFile (env_iteration env (i + n)) = Raises x
      end.
Proof.
  revert i w. induction fuel as [|fuel IH]; intros i w H; simpl in H;
    unfold mbind, M_bind, bind, ret in H.
  { simplify_eq. exists 0, []. rewrite app_nil_r, Nat.add_0_r.
    split_and!; [done|constructor|done]. }
  destruct (iteration _ _ _ _ _) as [r1 w1] eqn:Hit.
  apply iteration_transfers in Hit.
  destruct r1 as [[]|x].
  - destruct Hit as (p & c & cp & data & created & ? & ? & ? & ? & ? & ? & Ht).
    apply IH in H as (n & recs & Ht' & Hrecs & Hr).
    exists (S n), ((chunk_record src base i created data, "success") :: recs).
    split_and!.
    + rewrite Ht', Ht, <- app_assoc. reflexivity.
    + simpl. constructor; [|done]. by exists created, data.
    + destruct r as [[]|]; rewrite <- ?Nat.add_succ_comm; done.
  - simplify_eq. exists 0, []. rewrite app_nil_r, Nat.add_0_r.
    split_and!; [done|constructor|done].
  - simplify_eq. exists 0, []. rewrite app_nil_r.
    split_and!; [done|constructor|done].
  - destruct Hit as [? ->]. simplify_eq. exists 0, [].
    rewrite app_nil_r, Nat.add_0_r. split_and!; [done|constructor|done].
Qed.

(** More fuel does not change a run that has ended. *)
Lemma segment_loop_more_fuel fuel k env src base i w r w' :
  segment_loop fuel env src base i w = (r, w') →
  (∀ j, r ≠ Returns (Exhausted j)) →
  segment_loop (fuel + k) env src base i w = (r, w').
Proof.
  revert i w. induction fuel as [|fuel IH]; intros i w H Hr.
  { injection H as <- <-. by destruct (Hr i). }
  change (S fuel + k) with (S (fuel + k)).
  rewrite loop_step in *.
  destruct (iteration _ _ _ _ _) as [[[]|x] w1]; auto.
Qed.

(** ** The handler *)

Lemma handler_None env fuel w :
  handler env fuel None w =
    (Returns Done,
     World (fs w)
       (trace w ++
        [ Log INFO "Starting optimized MPG to 30-second MP3 chunks extraction process (Diagnostic Bypass Active)...";
          Log ERROR "Input FlowFile is None." ])).
Proof.
  unfold handler, logInfo, logError, emit, mbind, mret, M_bind, M_ret, bind, ret.
  simpl. rewrite <- app_assoc. reflexivity.
Qed.

Lemma handler_Some env fuel ff w :
  handler env fuel (Some ff) w =
    match env_remove env with
    | Some x => (Raises x, World (fs w) (trace w ++ input_events ff))
    | None =>
        match segment_loop fuel env (resolve_source_link ff)
                (resolve_base_filename ff) 0
                (World (fs w) (trace w ++ input_events ff ++ [SessionRemove ff]))
        with
        | (Returns (Broke k), w') =>
            (Returns Done, World (fs w') (trace w' ++ summary_events k))
        | (Returns Returned, w') => (Returns Done, w')
        | (Returns (Exhausted _), w') => (Returns OutOfFuel, w')
        | (Raises x, w') => (Raises x, w')
        end
    end.
Proof.
  unfold handler, session_remove, call, logInfo, logError, emit, input_events,
    mbind, mret, M_bind, M_ret, bind, ret, raise.
  destruct (Py.falsy _), (env_remove env); simpl;
    rewrite <- ?app_assoc; simpl; try reflexivity.
  all: destruct (segment_loop _ _ _ _ _ _) as [[[k| |k]|x] w']; simpl;
    try reflexivity.
  all: unfold summary_events; destruct (decide (k = 0)); simpl;
    rewrite <- ?app_assoc; reflexivity.
Qed.

Lemma handler_more_fuel fuel k env flowfile w r w' :
  handler env fuel flowfile w = (r, w') →
  r ≠ Returns OutOfFuel →
  handler env (fuel + k) flowfile w = (r, w').
Proof.
  destruct flowfile as [ff|]; [|by rewrite !handler_None].
  rewrite !handler_Some. destruct (env_remove env); [done|].
  destruct (segment_loop fuel _ _ _ _ _) as [r1 w1] eqn:Hloop.
  intros H Hr.
  rewrite (segment_loop_more_fuel _ k _ _ _ _ _ _ _ Hloop); [done|].
  intros j ->. by injection H as <- <-.
Qed.

(** ** Emitted records *)

Lemma chunk_record_attributes src base j created data :
  is_chunk_record src base j (chunk_record src base j created data).
Proof.
  unfold is_chunk_record, chunk_record; simpl.
  split_and!.
  - repeat (rewrite lookup_insert_ne by done). apply lookup_insert_eq.
  - repeat (rewrite lookup_insert_ne by done). apply lookup_insert_eq.
  - repeat (rewrite lookup_insert_ne by done). apply lookup_insert_eq.
  - repeat (rewrite lookup_insert_ne by done). apply lookup_insert_eq.
  - apply lookup_insert_eq.
Qed.

Lemma handler_transfers env fuel ff w :
  ∃ n recs,
    transfers (trace (handler env fuel (Some ff) w).2) = transfers (trace w) ++ recs
    ∧ Forall2 (emitted_at env (resolve_source_link ff) (resolve_base_filename ff))
        (seq 0 n) recs.
Proof.
  assert (Hin : transfers (input_events ff) = []).
  { unfold input_events. destruct (Py.falsy _); reflexivity. }
  rewrite handler_Some.
  destruct (env_remove env).
  { exists 0, []. cbn [trace snd]. rewrite transfers_app, Hin.
    split; [done|constructor]. }
  destruct (segment_loop _ _ _ _ _ _) as [r w'] eqn:Hloop.
  apply segment_loop_transfers in Hloop as (n & recs & Ht & Hrecs & _).
  cbn [trace] in Ht. rewrite !transfers_app, Hin in Ht.
  cbn in Ht. rewrite app_nil_r in Ht.
  exists n, recs. split; [|done].
  destruct r as [[k| |k]|x]; simpl; try done.
  rewrite transfers_app. unfold summary_events.
  destruct (decide (k = 0)); simpl; rewrite app_nil_r; done.
Qed.

(** C3.  In every run the records handed to [session.transfer] are, in
    order, the records of segments 0, 1, ..., k-1 for some k, each sent to
    [success]: no index is skipped, repeated or out of place.  When the loop
    is left by [break] or stopped for lack of fuel, the value of
    [segment_index] is the number of records emitted: the index advances
    only past a record that has been transferred. *)
Theorem emitted_indices_contiguous (env : environment) (fuel : nat)
    (flowfile : option flowfile) (w : world) :
  (∃ k src base recs,
     transfers (trace (handler env fuel flowfile w).2) = transfers (trace w) ++ recs
     ∧ Forall2 (fun j r => is_chunk_record src base j r.1 ∧ r.2 = "success")
         (seq 0 k) recs)
  ∧ (∀ src base out w',
       segment_loop fuel env src base 0 w = (Returns out, w') →
       ∀ k, out = Broke k ∨ out = Exhausted k →
       length (transfers (trace w')) = length (transfers (trace w)) + k).
Proof.
  split.
  - destruct flowfile as [ff|].
    + destruct (handler_transfers env fuel ff w) as (n & recs & Ht & Hrecs).
      exists n, (resolve_source_link ff), (resolve_base_filename ff), recs.
      split; [done|].
      eapply Forall2_impl; [exact Hrecs|].
      intros j [rec rel] (created & data & _ & _ & [= -> ->]).
      split; [apply chunk_record_attributes|done].
    + exists 0, "", "", []. rewrite handler_None. simpl.
      rewrite transfers_app. simpl. split; [done|constructor].
  - intros src base out w' Hloop k Hk.
    apply segment_loop_transfers in Hloop as (n & recs & Ht & Hrecs & Hout).
    apply Forall2_length in Hrecs. rewrite length_seq in Hrecs.
    rewrite Ht, length_app.
    destruct Hk as [-> | ->]; simpl in Hout; lia.
Qed.

Lemma emitted_indices_contiguous_witness :
  length (transfers (trace
    (segment_loop 10 env_final_segment "/data/movie.mpg" "movie" 0 empty_world).2))
  = 3.
Proof.
  destruct (emitted_indices_contiguous env_final_segment 10 (Some movie) empty_world)
    as [_ H].
  apply (H "/data/movie.mpg" "movie" (Broke 3)
           (segment_loop 10 env_final_segment "/data/movie.mpg" "movie" 0
              empty_world).2 eq_refl 3).
  left. reflexivity.
Defined.

(** C8.  The record emitted for segment [j] carries the attributes
    [filename], [mime.type], [original.link], [audio.chunk.start] and
    [audio.chunk.duration] with the values below and goes to the relation
    [success].  The start is the text of the float [j * 30.0]; the bound
    keeps the product in the range where that text is the digits followed
    by [.0]. *)
Theorem emitted_record_attributes (env : environment) (fuel : nat)
    (ff : flowfile) (w : world) (j : nat) (rec : flowfile) (rel : string) :
  transfers (trace (handler env fuel (Some ff) w).2)
    !! (length (transfers (trace w)) + j) = Some (rec, rel) →
  (Z.of_nat j * 30 < 10 ^ 16)%Z →
  attributes rec !! "filename"
    = Some (resolve_base_filename ff +:+ "_chunk_" +:+ Py.fmt_03d j +:+ ".mp3")
  ∧ attributes rec !! "mime.type" = Some "audio/mp3"
  ∧ attributes rec !! "original.link" = Some (resolve_source_link ff)
  ∧ attributes rec !! "audio.chunk.start" = Some (Py.str_nat (j * 30) +:+ ".0")
  ∧ attributes rec !! "audio.chunk.duration" = Some "30.0"
  ∧ rel = "success".
Proof.
  intros Hj _.
  destruct (handler_transfers env fuel ff w) as (n & recs & Ht & Hrecs).
  rewrite Ht, lookup_app_r, Nat.add_comm, Nat.add_sub in Hj by lia.
  destruct (Forall2_lookup_r _ _ _ _ _ Hrecs Hj) as (j' & Hseq & Hem).
  apply lookup_seq in Hseq as [-> _].
  destruct Hem as (created & data & _ & _ & [= -> ->]).
  pose proof (chunk_record_attributes (resolve_source_link ff)
                (resolve_base_filename ff) j created data) as (?&?&?&?&?).
  split_and!; done.
Qed.

Lemma emitted_record_attributes_witness :
  attributes (chunk_record "/data/movie.mpg" "movie" 2 fresh (blob 2000))
    !! "filename" = Some "movie_chunk_002.mp3"
  ∧ attributes (chunk_record "/data/movie.mpg" "movie" 2 fresh (blob 2000))
    !! "audio.chunk.start" = Some "60.0".
Proof.
  destruct (emitted_record_attributes env_final_segment 10 movie empty_world 2
              (chunk_record "/data/movie.mpg" "movie" 2 fresh (blob 2000))
              "success") as (Hf & _ & _ & Hs & _).
  - vm_compute. reflexivity.
  - vm_compute. reflexivity.
  - split; [exact Hf|exact Hs].
Defined.

(** ** Classification of an iteration *)

(** Case analysis on the way the [try] block ended, given what the
    environment answered. *)
Ltac classify Hs :=
  inversion Hs; subst; clear Hs;
  repeat match goal with
    | H1 : env_run ?e = _, H2 : env_run ?e = _ |- _ =>
        rewrite H1 in H2; simplify_eq
    | H : context [fs_after_tool (fs (after_alloc _ _ _ _)) _ _ !! _] |- _ =>
        rewrite artifact_after_lookup in H
    | H1 : artifact_after ?w ?p ?c ?cp = _,
      H2 : context [artifact_after ?w ?p ?c ?cp] |- _ =>
        rewrite H1 in H2; simplify_eq
    end;
  unfold above_threshold, below_threshold in *;
  try (exfalso; simpl in *; first [ lia | congruence | tauto ]).

(** C6.  An iteration whose artifact is missing or smaller than 1024 bytes
    once the tool has exited emits nothing, whatever the exit code: the
    transfers are those of the state in which the iteration started.  After
    a zero exit the loop is left with the warning as its last event; after a
    non-zero exit at an index other than 0 it is left without a further
    event. *)
Theorem invalid_artifact_never_emitted (env : environment) (fuel : nat)
    (src base : string) (i : nat) (w : world) (p : string) (c : bool)
    (cp : completed_process) :
  env_getTempFile (env_iteration env i) = Returns (p, c) →
  env_run (env_iteration env i) = Returns cp →
  below_threshold (artifact_after w p c cp) →
  ∃ out w',
    segment_loop (S fuel) env src base i w = (Returns out, w')
    ∧ transfers (trace w') = transfers (trace w)
    ∧ (returncode cp = 0%Z →
         out = Broke i
         ∧ trace w' = trace w ++
             [ GetTempFile ("segment-" +:+ Py.fmt_03d i) ".mp3" p;
               executing_log i; run_event src p i; too_small_log i ])
    ∧ (returncode cp ≠ 0%Z → i ≠ 0 →
         out = Broke i
         ∧ trace w' = trace w ++
             [ GetTempFile ("segment-" +:+ Py.fmt_03d i) ".mp3" p;
               executing_log i; run_event src p i ])
    ∧ (returncode cp ≠ 0%Z → i = 0 → out = Returned).
Proof.
  intros Halloc Hrun Hart.
  rewrite loop_step.
  destruct (iteration_cases (env_iteration env i) src base i w)
    as [(x & Ha & _)|(p' & c' & r2 & w2 & Ha & Hs & ->)];
    rewrite Halloc in Ha; simplify_eq.
  pose proof (try_block_spec_transfers _ _ _ _ _ _ _ _ Hs) as Ht.
  rewrite after_alloc_transfers in Ht.
  destruct (artifact_after w _ _ cp) as [data|] eqn:Hd.
  all: classify Hs; simpl in *.
  all: eexists _, _; split; [reflexivity|]; simpl.
  all: rewrite ?transfers_app, ?Ht; simpl.
  all: repeat match goal with
         | |- context [decide ?P] => destruct (decide P); simpl
         end.
  all: rewrite <- ?app_assoc, ?app_nil_r; simpl.
  all: split_and!; try done; intros; try done; try lia.
Qed.

Lemma invalid_artifact_never_emitted_witness :
  ∃ w',
    segment_loop 1 env_small_artifact "/data/movie.mpg" "movie" 0 empty_world
      = (Returns (Broke 0), w')
    ∧ transfers (trace w') = []
    ∧ recent 1 (trace w') = [too_small_log 0].
Proof.
  destruct (invalid_artifact_never_emitted env_small_artifact 0
              "/data/movie.mpg" "movie" 0 empty_world (temp_path 0) true
              (CompletedProcess 0 [] (Some (blob 500))))
    as (out & w' & Hloop & Ht & Hzero & _).
  - reflexivity.
  - reflexivity.
  - change (length (blob 500) < 1024). unfold blob.
    rewrite length_replicate. lia.
  - destruct (Hzero eq_refl) as [-> Htrace].
    exists w'. split_and!; [exact Hloop|exact Ht|].
    rewrite Htrace. reflexivity.
Defined.

(** ** Exceptions *)




(** ** The accepted segment *)

(** C7, amended.  For a segment that is accepted (zero exit, artifact of at
    least 1024 bytes) the calls of the iteration are, in this order: the
    record is created, its five attributes are set, the whole artifact is
    written into it, the artifact is deleted, and only then, after a log
    line, is the record handed to [success].  When creating, attributing or
    writing raises, the artifact is deleted after that, by the [except]
    block.  So creation, attributes and content complete or raise before the
    deletion; the transfer comes after it, and when it raises the artifact
    is already gone. *)
Theorem emission_precedes_deletion_transfer_follows (e : iteration_env)
    (src base : string) (i : nat) (w : world) (p : string) (c : bool)
    (cp : completed_process) (data : list byte) :
  env_getTempFile e = Returns (p, c) →
  env_run e = Returns cp →
  returncode cp = 0%Z →
  artifact_after w p c cp = Some data →
  1024 ≤ length data →
  (emission_failure e = None →
     ∃ created w',
       env_create e = Returns created
       ∧ iteration e src base i w = (Returns Continue, w')
       ∧ trace w' = trace w ++
           [ GetTempFile ("segment-" +:+ Py.fmt_03d i) ".mp3" p;
             executing_log i;
             run_event src p i;
             extracted_log i (length data);
             SessionCreate created;
             SessionPutAttribute "filename"
               (base +:+ "_chunk_" +:+ Py.fmt_03d i +:+ ".mp3");
             SessionPutAttribute "mime.type" "audio/mp3";
             SessionPutAttribute "original.link" src;
             SessionPutAttribute "audio.chunk.start" (Py.str_float (i * 30));
             SessionPutAttribute "audio.chunk.duration" "30.0";
             SessionWrite data;
             OsRemove p;
             Log INFO ("Segment " +:+ Py.str_nat i
                       +:+ " transferred to 'success' relation.");
             SessionTransfer (chunk_record src base i created data) "success" ]
       ∧ content (chunk_record src base i created data) = data
       ∧ fs w' !! p = None)
  ∧ (∀ n x, emission_failure e = Some (n, x) →
       ∃ w',
         iteration e src base i w = (Returns Return, w')
         ∧ trace w' = trace w ++
             [ GetTempFile ("segment-" +:+ Py.fmt_03d i) ".mp3" p;
               executing_log i;
               run_event src p i;
               extracted_log i (length data) ]
             ++ take n (emission_events src base i p (created_record e) data)
             ++ critical_error x :: (if decide (n = 9) then [] else [OsRemove p])
         ∧ fs w' !! p = None).
Proof.
  intros Halloc Hrun Hrc Hart Hlen.
  destruct (iteration_cases e src base i w)
    as [(x & Ha & _)|(p' & c' & r2 & w2 & Ha & Hs & ->)];
    rewrite Halloc in Ha; simplify_eq.
  split.
  - intros Hnone. classify Hs.
    destruct (emission_failure_None _ Hnone) as (created & Hc & Hcr & _).
    rewrite Hcr. exists created. eexists. split_and!; try done.
    + cbn [trace after_alloc]. rewrite <- !app_assoc. reflexivity.
    + apply lookup_delete_eq.
  - intros n x Hsome. classify Hs.
    eexists. split; [reflexivity|]. cbn [fs trace].
    split; [|apply lookup_delete_eq].
    destruct (decide (n = 9)) as [->|Hn].
    + rewrite lookup_delete_eq. cbn [after_alloc trace].
      rewrite <- !app_assoc. reflexivity.
    + rewrite artifact_after_lookup, Hart. cbn [after_alloc trace].
      rewrite <- !app_assoc. reflexivity.
Qed.

Lemma emission_precedes_deletion_transfer_follows_witness :
  recent 4
    (trace (iteration (quiet 0 0 [] (Some (blob 2000))) "/data/movie.mpg"
              "movie" 0 empty_world).2)
  = [ SessionWrite (blob 2000);
      OsRemove (temp_path 0);
      Log INFO "Segment 0 transferred to 'success' relation.";
      SessionTransfer (chunk_record "/data/movie.mpg" "movie" 0 fresh (blob 2000))
        "success" ].
Proof.
  destruct (emission_precedes_deletion_transfer_follows
              (quiet 0 0 [] (Some (blob 2000))) "/data/movie.mpg" "movie" 0
              empty_world (temp_path 0) true
              (CompletedProcess 0 [] (Some (blob 2000))) (blob 2000))
    as [Hok _].
  - reflexivity.
  - reflexivity.
  - reflexivity.
  - reflexivity.
  - unfold blob. rewrite length_replicate. lia.
  - destruct (Hok eq_refl) as (created & w' & Hc & Hit & Ht & _).
    injection Hc as <-. rewrite Hit. cbn [snd]. rewrite Ht. reflexivity.
Defined.

(** ** The threshold *)

Lemma emission_succeeds e created :
  env_create e = Returns created →
  (∀ n, env_putAttribute e n = None) →
  env_write e = None → env_transfer e = None →
  emission_failure e = None ∧ created_record e = created.
Proof.
  intros Hc Hp Hw Ht. unfold emission_failure, created_record.
  rewrite Hc, !Hp, Hw, Ht. done.
Qed.

(** C10.  At exactly 1024 bytes the two tests disagree.  After a zero exit
    the artifact is accepted and, when no host call raises, emitted.  After
    a non-zero exit it is not taken for a final segment: the log line of the
    final segment does not appear, nothing is emitted, and the iteration
    ends as it does without an artifact (first-segment failure at index 0,
    plain [break] otherwise). *)
Theorem threshold_boundary_asymmetric (e : iteration_env) (src base : string)
    (i : nat) (w : world) (p : string) (c : bool) (cp : completed_process)
    (data : list byte) :
  env_getTempFile e = Returns (p, c) →
  env_run e = Returns cp →
  artifact_after w p c cp = Some data →
  length data = 1024 →
  (returncode cp = 0%Z →
     ∀ created,
       env_create e = Returns created →
       (∀ n, env_putAttribute e n = None) →
       env_write e = None → env_transfer e = None →
       ∃ w',
         iteration e src base i w = (Returns Continue, w')
         ∧ transfers (trace w') = transfers (trace w)
             ++ [(chunk_record src base i created data, "success")])
  ∧ (returncode cp ≠ 0%Z →
       ∃ f w',
         iteration e src base i w = (Returns f, w')
         ∧ f = (if decide (i = 0) then Return else Break)
         ∧ transfers (trace w') = transfers (trace w)
         ∧ final_segment_log ∉ drop (length (trace w)) (trace w')).
Proof.
  intros Halloc Hrun Hart Hlen.
  destruct (iteration_cases e src base i w)
    as [(x & Ha & _)|(p' & c' & r2 & w2 & Ha & Hs & ->)];
    rewrite Halloc in Ha; simplify_eq.
  pose proof (try_block_spec_transfers _ _ _ _ _ _ _ _ Hs) as Ht.
  rewrite after_alloc_transfers in Ht.
  split.
  - intros Hrc created Hc Hp Hw Htr.
    destruct (emission_succeeds _ _ Hc Hp Hw Htr) as [Hnone Hcr].
    classify Hs.
    destruct Ht as (cp' & data' & Hr' & _ & Hl & _ & _ & Ht).
    rewrite Hrun in Hr'. simplify_eq.
    rewrite artifact_after_lookup, Hart in Hl. simplify_eq.
    eexists. split; [reflexivity|]. rewrite Ht. done.
  - intros Hrc.
    classify Hs; simpl in *.
    all: eexists _, _; split; [reflexivity|]; simpl.
    all: rewrite ?transfers_app, ?Ht; simpl.
    all: repeat match goal with
           | |- context [decide ?P] => destruct (decide P); simpl
           end.
    all: rewrite <- ?app_assoc, ?app_nil_r; simpl.
    all: try lia.
    all: split_and!; try done.
    all: rewrite drop_app_length; unfold final_segment_log.
    all: intros Hin; repeat (apply elem_of_cons in Hin as [Hin|Hin];
                          [discriminate Hin|]).
    all: by apply elem_of_nil in Hin.
Qed.

Lemma threshold_boundary_asymmetric_witness :
  (∃ w', iteration (quiet 0 0 [] (Some (blob 1024))) "/data/movie.mpg" "movie"
           0 empty_world = (Returns Continue, w')
         ∧ transfers (trace w')
           = [(chunk_record "/data/movie.mpg" "movie" 0 fresh (blob 1024),
               "success")])
  ∧ (∃ w', iteration (quiet 1 1 [] (Some (blob 1024))) "/data/movie.mpg" "movie"
             1 empty_world = (Returns Break, w')
           ∧ transfers (trace w') = []).
Proof.
  split.
  - destruct (threshold_boundary_asymmetric (quiet 0 0 [] (Some (blob 1024)))
                "/data/movie.mpg" "movie" 0 empty_world (temp_path 0) true
                (CompletedProcess 0 [] (Some (blob 1024))) (blob 1024))
      as [Hzero _].
    + reflexivity.
    + reflexivity.
    + reflexivity.
    + unfold blob. apply length_replicate.
    + apply (Hzero eq_refl fresh); reflexivity.
  - destruct (threshold_boundary_asymmetric (quiet 1 1 [] (Some (blob 1024)))
                "/data/movie.mpg" "movie" 1 empty_world (temp_path 1) true
                (CompletedProcess 1 [] (Some (blob 1024))) (blob 1024))
      as [_ Hnonzero].
    + reflexivity.
    + reflexivity.
    + reflexivity.
    + unfold blob. apply length_replicate.
    + destruct Hnonzero as (f & w' & Hit & -> & Ht & _); [discriminate|].
      exists w'. split; [exact Hit|exact Ht].
Defined.

(** ** Failure of the first segment *)

(** X12.  Failure of the first segment: when the tool exits non-zero at
    index 0, the artifact is missing or smaller than 1024 bytes and the
    standard error decodes, the error is logged with the text of the
    standard error, the [except] block logs the exit code and removes the
    artifact, nothing is emitted and the handler returns. *)
Lemma first_segment_failure env fuel ff w p c cp text :
  env_remove env = None →
  env_getTempFile (env_iteration env 0) = Returns (p, c) →
  env_run (env_iteration env 0) = Returns cp →
  returncode cp ≠ 0%Z →
  below_threshold (artifact_after w p c cp) →
  Py.decode (stderr cp) = inl text →
  ∃ w' removed,
    handler env (S fuel) (Some ff) w = (Returns Done, w')
    ∧ transfers (trace w') = transfers (trace w)
    ∧ trace w' = trace w ++ input_events ff ++
        [ SessionRemove ff;
          GetTempFile "segment-000" ".mp3" p;
          executing_log 0;
          run_event (resolve_source_link ff) p 0;
          first_segment_log text;
          critical_error (first_segment_exn (returncode cp)) ] ++ removed
    ∧ (removed = [] ∨ removed = [OsRemove p])
    ∧ fs w' !! p = None.
Proof.
  intros Hrm Halloc Hrun Hrc Hart Hdec.
  assert (Hin : transfers (input_events ff) = []).
  { unfold input_events. destruct (Py.falsy _); reflexivity. }
  rewrite handler_Some, Hrm, loop_step.
  set (w0 := World (fs w) (trace w ++ input_events ff ++ [SessionRemove ff])).
  destruct (iteration_cases (env_iteration env 0) (resolve_source_link ff)
              (resolve_base_filename ff) 0 w0)
    as [(x & Ha & _)|(p' & c' & r2 & w2 & Ha & Hs & ->)];
    rewrite Halloc in Ha; simplify_eq.
  change (artifact_after w p' c' cp) with (artifact_after w0 p' c' cp) in Hart.
  destruct (artifact_after w0 _ _ cp) as [data|] eqn:Hd.
  all: classify Hs.
  all: match goal with
       | H1 : Py.decode ?b = _, H2 : Py.decode ?b = _ |- _ =>
           rewrite H1 in H2; simplify_eq
       end.
  all: eexists _, _; split; [reflexivity|]; cbn [fs trace after_alloc w0].
  all: split_and!.
  all: try apply lookup_delete_eq.
  all: try (rewrite <- !app_assoc; reflexivity).
  all: try (destruct (decide _); [by right|by left]).
  all: rewrite !transfers_app, Hin; simpl;
       destruct (decide _); simpl; rewrite ?app_nil_r; reflexivity.
Qed.

(** ** Input resolution *)

Lemma rsplit_dot_head_spec f :
  Py.has_dot f = true →
  ∃ ext, f = Py.rsplit_dot_head f +:+ "." +:+ ext ∧ Py.has_dot ext = false.
Proof.
  induction f as [|ch f IH]; simpl; [discriminate|].
  destruct (Py.has_dot f) eqn:Hf.
  - intros _. destruct (IH eq_refl) as (ext & Heq & Hext).
    exists ext. split; [|done].
    change (String ch f = String ch (Py.rsplit_dot_head f +:+ "." +:+ ext)).
    f_equal. exact Heq.
  - destruct (decide (ch = "."%char)) as [->|]; [|discriminate].
    intros _. exists f. done.
Qed.

Lemma truthy_Some a s : truthy a = Some s ↔ a = Some s ∧ s ≠ "".
Proof.
  unfold truthy, Py.falsy. destruct a as [s'|]; [|split; [done|by intros [? _]]].
  destruct (decide (s' = "")) as [->|Hne].
  - split; [done|]. intros [[= <-] ?]. done.
  - split; [intros [= <-]; done|]. by intros [? _].
Qed.

Lemma truthy_None a : truthy a = None ↔ Py.falsy a = true.
Proof.
  unfold truthy. destruct (Py.falsy a) eqn:H; [done|].
  split; [|done]. intros ->. done.
Qed.

(** C9.  The source location is the value of [idol.reference]; when that
    attribute is missing (absent or empty, which the handler reports as
    missing with an error line) it is the [filename] attribute, and the
    identifier of the record when that is missing too.  The base name is the
    [filename] up to its last ['.'], and the identifier when there is no
    [filename] or no ['.'] in it.  The handler logs, disposes of the input
    record, and only then enters the loop, with these two values: no output
    record is created before the disposal. *)
Theorem input_resolution (env : environment) (fuel : nat) (ff : flowfile)
    (w : world) :
  let src := resolve_source_link ff in
  let base := resolve_base_filename ff in
  (∀ s, getAttribute ff "idol.reference" = Some s → s ≠ "" →
        src = s
        ∧ input_events ff
          = [ Log INFO "Starting optimized MPG to 30-second MP3 chunks extraction process (Diagnostic Bypass Active)...";
              Log INFO ("DIAGNOSTIC BYPASS: Using source file directly: " +:+ s) ])
  ∧ (Py.falsy (getAttribute ff "idol.reference") = true →
       input_events ff
       = [ Log INFO "Starting optimized MPG to 30-second MP3 chunks extraction process (Diagnostic Bypass Active)...";
           Log ERROR "Required attribute 'idol.reference' (source link) is missing.";
           Log INFO ("DIAGNOSTIC BYPASS: Using source file directly: " +:+ src) ]
       ∧ (∀ f, getAttribute ff "filename" = Some f → f ≠ "" → src = f)
       ∧ (Py.falsy (getAttribute ff "filename") = true → src = getUuid ff))
  ∧ (∀ f, getAttribute ff "filename" = Some f → Py.has_dot f = true →
          ∃ ext, f = base +:+ "." +:+ ext ∧ Py.has_dot ext = false)
  ∧ (∀ f, getAttribute ff "filename" = Some f → Py.has_dot f = false →
          base = getUuid ff)
  ∧ (getAttribute ff "filename" = None → base = getUuid ff)
  ∧ handler env fuel (Some ff) w =
      match env_remove env with
      | Some x => (Raises x, World (fs w) (trace w ++ input_events ff))
      | None =>
          match segment_loop fuel env src base 0
                  (World (fs w) (trace w ++ input_events ff ++ [SessionRemove ff]))
          with
          | (Returns (Broke k), w') =>
              (Returns Done, World (fs w') (trace w' ++ summary_events k))
          | (Returns Returned, w') => (Returns Done, w')
          | (Returns (Exhausted _), w') => (Returns OutOfFuel, w')
          | (Raises x, w') => (Raises x, w')
          end
      end.
Proof.
  intros src base. subst src base.
  split_and!.
  - intros s Hs Hne.
    assert (Ht : truthy (getAttribute ff "idol.reference") = Some s)
      by by apply truthy_Some.
    assert (Hf : Py.falsy (getAttribute ff "idol.reference") = false).
    { rewrite Hs; simpl. by destruct (decide (s = "")). }
    unfold input_events, resolve_source_link. rewrite Ht, Hf. done.
  - intros Hf. unfold input_events. rewrite Hf. split; [done|].
    unfold resolve_source_link.
    rewrite (proj2 (truthy_None _) Hf).
    split.
    + intros f Hfn Hne.
      by rewrite (proj2 (truthy_Some _ _) (conj Hfn Hne)).
    + intros Hfn. by rewrite (proj2 (truthy_None _) Hfn).
  - intros f Hfn Hdot. unfold resolve_base_filename.
    assert (f ≠ "") by (intros ->; discriminate).
    rewrite (proj2 (truthy_Some _ _) (conj Hfn H)), Hdot.
    by apply rsplit_dot_head_spec.
  - intros f Hfn Hdot. unfold resolve_base_filename.
    destruct (truthy _) as [f'|] eqn:Ht; [|done].
    apply truthy_Some in Ht as [Ht _]. rewrite Hfn in Ht. simplify_eq.
    by rewrite Hdot.
  - intros Hfn. unfold resolve_base_filename, truthy. by rewrite Hfn.
  - apply handler_Some.
Qed.

Lemma input_resolution_witness :
  resolve_source_link movie = "/data/movie.mpg"
  ∧ (∃ ext, "movie.mpg" = resolve_base_filename movie +:+ "." +:+ ext
            ∧ Py.has_dot ext = false)
  ∧ resolve_source_link (FlowFile "3f2a-77" (<["filename" := "movie.mpg"]> ∅) [])
    = "movie.mpg"
  ∧ resolve_base_filename (FlowFile "3f2a-77" (<["filename" := "movie"]> ∅) [])
    = "3f2a-77".
Proof.
  split_and!.
  - destruct (input_resolution env_one_segment 1 movie empty_world)
      as (H & _).
    apply (H "/data/movie.mpg"); [reflexivity|discriminate].
  - destruct (input_resolution env_one_segment 1 movie empty_world)
      as (_ & _ & H & _).
    apply (H "movie.mpg"); reflexivity.
  - destruct (input_resolution env_one_segment 1
                (FlowFile "3f2a-77" (<["filename" := "movie.mpg"]> ∅) [])
                empty_world) as (_ & H & _).
    destruct (H eq_refl) as (_ & Hf & _).
    apply (Hf "movie.mpg"); [reflexivity|discriminate].
  - destruct (input_resolution env_one_segment 1
                (FlowFile "3f2a-77" (<["filename" := "movie"]> ∅) [])
                empty_world) as (_ & _ & _ & H & _).
    apply (H "movie"); reflexivity.
Defined.

(** ** Runs that show the defects *)

(** C1.  The tool succeeds for segments 0..2 and exits non-zero at index 3
    leaving a 2000-byte artifact; the run is given fuel for four iterations
    or more.  The handler logs that a final segment was
    created and then leaves the loop at once: three records are emitted, not
    four, and the artifact of index 3 stays on disk. *)
Theorem final_segment_after_nonzero_exit_is_dropped (k : nat) :
  let out := handler env_final_segment (4 + k) (Some movie) empty_world in
  out.1 = Returns Done
  ∧ map (fun r => (attributes r.1 !! "filename", r.2)) (transfers (trace out.2))
    = [ (Some "movie_chunk_000.mp3", "success");
        (Some "movie_chunk_001.mp3", "success");
        (Some "movie_chunk_002.mp3", "success") ]
  ∧ recent 3 (trace out.2)
    = [ final_segment_log;
        Log INFO "MP3 chunking complete. Total of 3 FlowFiles transferred to success.";
        Log INFO "Process finished." ]
  ∧ fs out.2 !! temp_path 3 = Some (blob 2000).
Proof.
  rewrite (handler_more_fuel 4 k _ _ _ _ _ (surjective_pairing _));
    [|vm_compute; discriminate].
  vm_compute. repeat split; reflexivity.
Qed.

(** C2.  The loop is left by [break] with the artifact of the iteration still
    on disk: after a zero exit with a 500-byte artifact at index 0, and after
    a non-zero exit at index 1 that left the file [getTempFile] had
    created. *)
Theorem artifact_left_on_disk_at_end_of_stream (k : nat) :
  let small := handler env_small_artifact (1 + k) (Some movie) empty_world in
  let ended := handler env_one_segment (2 + k) (Some movie) empty_world in
  small.1 = Returns Done
  ∧ fs small.2 !! temp_path 0 = Some (blob 500)
  ∧ ended.1 = Returns Done
  ∧ fs ended.2 !! temp_path 1 = Some [].
Proof.
  rewrite (handler_more_fuel 1 k _ _ _ _ _ (surjective_pairing _));
    [|vm_compute; discriminate].
  rewrite (handler_more_fuel 2 k _ _ _ _ _ (surjective_pairing _));
    [|vm_compute; discriminate].
  vm_compute. repeat split; reflexivity.
Qed.

(** C5.  The first segment fails and the tool's standard error is not valid
    UTF-8: decoding it raises before the error is logged, so the only error
    line is the one of the [except] block, about the decoding. *)
Theorem first_segment_failure_with_undecodable_stderr (k : nat) :
  let out := handler env_undecodable (1 + k) (Some movie) empty_world in
  out.1 = Returns Done
  ∧ transfers (trace out.2) = []
  ∧ errors (trace out.2)
    = [ "Critical Error during segment extraction: 'utf-8' codec can't decode byte 0xff in position 0: invalid start byte" ].
Proof.
  rewrite (handler_more_fuel 1 k _ _ _ _ _ (surjective_pairing _));
    [|vm_compute; discriminate].
  vm_compute. repeat split; reflexivity.
Qed.


(** C7, as stated, fails: when the artifact is deleted the record has not
    been transferred yet; the transfer is the last call of the emission. *)
Lemma artifact_deleted_before_transfer :
  let t := trace (handler env_one_segment 10 (Some movie) empty_world).2 in
  t !! 14 = Some (OsRemove (temp_path 0))
  ∧ transfers (take 15 t) = []
  ∧ t !! 16 = Some (SessionTransfer
                      (chunk_record "/data/movie.mpg" "movie" 0 fresh (blob 2000))
                      "success").
Proof. vm_compute. repeat split; reflexivity. Qed.

(** * Further properties of the handler *)

Lemma runs_app t1 t2 : runs (t1 ++ t2) = runs t1 ++ runs t2.
Proof. apply omap_app. Qed.

Lemma creations_app t1 t2 : creations (t1 ++ t2) = creations t1 ++ creations t2.
Proof. apply omap_app. Qed.

Lemma removals_app t1 t2 : removals (t1 ++ t2) = removals t1 ++ removals t2.
Proof. apply omap_app. Qed.

Lemma lookup_fs_after_tool_ne files p q cp :
  p ≠ q → fs_after_tool files p cp !! q = files !! q.
Proof.
  intros Hne. unfold fs_after_tool.
  destruct (tool_writes cp); [by apply lookup_insert_ne|done].
Qed.

(** What one pass through the [try] block does besides transferring: it runs
    the tool once unless the invocation raises, creates at most one record,
    removes no record, and leaves every file but the temporary one alone. *)
Lemma try_block_spec_calls e src base i p w r w' :
  try_block_spec e src base i p w r w' →
  runs (trace w') = runs (trace w)
    ++ match env_run e with
       | Returns _ => [ffmpeg_command src p (i * CHUNK_DURATION)]
       | Raises _ => []
       end
  ∧ (∃ cr, creations (trace w') = creations (trace w) ++ cr
           ∧ (cr = [] ∨ cr = [created_record e])
           ∧ (r = Returns Continue → cr = [created_record e]))
  ∧ removals (trace w') = removals (trace w)
  ∧ (∀ q, p ≠ q → fs w' !! q = fs w !! q).
Proof.
  destruct 1;
    repeat match goal with H : env_run _ = _ |- _ => rewrite H; clear H end;
    cbn [trace fs];
    rewrite ?runs_app, ?creations_app, ?removals_app.
  all: try match goal with H : emission_failure _ = Some _ |- _ =>
         apply emission_failure_Some in H; destruct_or!; subst
       end.
  all: cbn; rewrite ?app_nil_r.
  all: split_and!; try reflexivity.
  all: try (intros q Hq; rewrite ?lookup_delete_ne by done;
            by apply lookup_fs_after_tool_ne).
  all: try (eexists; split_and!; [symmetry; apply app_nil_r|by left|done]).
  all: try (eexists; split_and!; [reflexivity|by right|done]).
  all: intros q Hq; destruct (decide _); rewrite ?lookup_delete_ne by done;
    by apply lookup_fs_after_tool_ne.
Qed.

Lemma iteration_calls e src base i w r w' :
  iteration e src base i w = (r, w') →
  runs (trace w') = runs (trace w)
    ++ match env_getTempFile e, env_run e with
       | Returns (p, _), Returns _ => [ffmpeg_command src p (i * CHUNK_DURATION)]
       | _, _ => []
       end
  ∧ (∃ cr, creations (trace w') = creations (trace w) ++ cr
           ∧ (cr = [] ∨ cr = [created_record e])
           ∧ (r = Returns Continue → cr = [created_record e]))
  ∧ removals (trace w') = removals (trace w).
Proof.
  intros H.
  destruct (iteration_cases e src base i w)
    as [(x & Ha & Hi)|(p & c & r2 & w2 & Ha & Hs & Hi)];
    rewrite Hi in H; clear Hi; rewrite Ha.
  { injection H as <- <-. rewrite app_nil_r. split_and!; [done| |done].
    exists []. rewrite app_nil_r. split_and!; [done|by left|done]. }
  destruct (try_block_spec_calls _ _ _ _ _ _ _ _ Hs)
    as (Hruns & (cr & Hcr & Hcases & Hcont) & Hrem & _).
  cbn [after_alloc trace] in Hruns, Hcr, Hrem.
  rewrite runs_app in Hruns. rewrite creations_app in Hcr.
  rewrite removals_app in Hrem. cbn in Hruns, Hcr, Hrem.
  rewrite app_nil_r in Hruns, Hcr, Hrem.
  destruct r2 as [f|x]; injection H as <- <-.
  - split_and!; [done| |done]. exists cr. split_and!; [done|done|].
    intros [= ->]. by apply Hcont.
  - cbn [trace]. rewrite runs_app, creations_app, removals_app.
    assert (Hz : ∀ l : list event,
               l = critical_error x
                   :: (if decide (is_Some (fs w2 !! p)) then [OsRemove p] else []) →
               runs l = [] ∧ creations l = [] ∧ removals l = []).
    { intros l ->. destruct (decide _); done. }
    destruct (Hz _ eq_refl) as (-> & -> & ->). rewrite !app_nil_r.
    split_and!; [done| |done]. exists cr. split_and!; [done|done|done].
Qed.

(** The files: an iteration leaves every path but its temporary one alone,
    and when it ends by accepting the segment or in the [except] block, the
    temporary file is gone. *)
Lemma iteration_files e src base i w r w' :
  iteration e src base i w = (r, w') →
  (∀ q, (∀ p c, env_getTempFile e = Returns (p, c) → p ≠ q) →
        fs w' !! q = fs w !! q)
  ∧ (∀ p c, env_getTempFile e = Returns (p, c) →
            r = Returns Continue ∨ r = Returns Return → fs w' !! p = None).
Proof.
  intros H.
  destruct (iteration_cases e src base i w)
    as [(x & Ha & Hi)|(p & c & r2 & w2 & Ha & Hs & Hi)];
    rewrite Hi in H; clear Hi.
  { injection H as <- <-. split; [done|]. intros p c Hp [?|?]; done. }
  destruct (try_block_spec_calls _ _ _ _ _ _ _ _ Hs) as (_ & _ & _ & Hframe).
  split.
  - intros q Hq. specialize (Hq p c Ha).
    destruct r2 as [f|x]; injection H as <- <-; cbn [fs].
    + rewrite Hframe by done. cbn [after_alloc fs].
      destruct c; [by apply lookup_insert_ne|done].
    + rewrite lookup_delete_ne by done. rewrite Hframe by done.
      cbn [after_alloc fs]. destruct c; [by apply lookup_insert_ne|done].
  - intros p' c' Hp Hr. rewrite Ha in Hp. injection Hp as <- <-.
    destruct r2 as [f|x]; injection H as <- <-; cbn [fs].
    + destruct Hr as [[= ->]|[= ->]]; inversion Hs; subst.
      apply lookup_delete_eq.
    + apply lookup_delete_eq.
Qed.

(** An iteration that ends in the [except] block ends with the error line
    and, if the file was there, its deletion. *)
Lemma iteration_return_ends_with_error e src base i w w' :
  iteration e src base i w = (Returns Return, w') →
  ∃ t x removed,
    trace w' = t ++ critical_error x :: removed
    ∧ (removed = [] ∨ ∃ p, removed = [OsRemove p]).
Proof.
  intros H.
  destruct (iteration_cases e src base i w)
    as [(x & Ha & Hi)|(p & c & r2 & w2 & Ha & Hs & Hi)];
    rewrite Hi in H; clear Hi; [discriminate|].
  destruct r2 as [f|x]; injection H.
  - intros _ ->. inversion Hs.
  - intros <-. eexists _, _, _. split; [reflexivity|].
    destruct (decide _); [right; eauto|by left].
Qed.

(** ** The calls of a whole loop *)

Lemma command_at_Some env src j p c cp :
  env_getTempFile (env_iteration env j) = Returns (p, c) →
  env_run (env_iteration env j) = Returns cp →
  command_at env src j = Some (ffmpeg_command src p (j * CHUNK_DURATION)).
Proof. intros Ha Hr. unfold command_at. by rewrite Ha, Hr. Qed.

Lemma segment_loop_calls fuel env src base i w r w' :
  segment_loop fuel env src base i w = (r, w') →
  ∃ n m cmds cr,
    length (transfers (trace w')) = length (transfers (trace w)) + n
    ∧ runs (trace w') = runs (trace w) ++ cmds
    ∧ Forall2 (fun j cmd => command_at env src j = Some cmd) (seq i m) cmds
    ∧ n ≤ m ≤ n + 1
    ∧ creations (trace w') = creations (trace w) ++ cr
    ∧ n ≤ length cr ≤ n + 1
    ∧ removals (trace w') = removals (trace w).
Proof.
  revert i w. induction fuel as [|fuel IH]; intros i w H.
  { injection H as <- <-. exists 0, 0, [], []. rewrite !app_nil_r.
    split_and!; simpl; try done; try lia; constructor. }
  rewrite loop_step in H.
  destruct (iteration _ _ _ _ _) as [r1 w1] eqn:Hit.
  pose proof (iteration_transfers _ _ _ _ _ _ _ Hit) as Ht.
  destruct (iteration_calls _ _ _ _ _ _ _ Hit)
    as (Hruns & (cr1 & Hcr & Hcases & Hcont) & Hrem).
  destruct r1 as [[]|x].
  - destruct Ht as (p & c & cp & data & created & Ha & Hr & _ & _ & _ & _ & Ht).
    rewrite Ha, Hr in Hruns. rewrite (Hcont eq_refl) in Hcr.
    apply IH in H as (n & m & cmds & cr & Hn & Hcmds & Hall & Hm & Hcrs & Hlen & Hrems).
    exists (S n), (S m), (ffmpeg_command src p (i * CHUNK_DURATION) :: cmds),
      (created_record (env_iteration env i) :: cr).
    split_and!; try (simpl; lia).
    + rewrite Hn, Ht, length_app. simpl. lia.
    + rewrite Hcmds, Hruns, <- app_assoc. reflexivity.
    + simpl. constructor; [by eapply command_at_Some|done].
    + rewrite Hcrs, Hcr, <- app_assoc. reflexivity.
    + congruence.
  - injection H as <- <-.
    assert (Hm : ∃ m cmds, runs (trace w1) = runs (trace w) ++ cmds
               ∧ Forall2 (fun j cmd => command_at env src j = Some cmd)
                   (seq i m) cmds ∧ m ≤ 1).
    { destruct (env_getTempFile _) as [[p c]|] eqn:Ha;
        [destruct (env_run _) as [cp|] eqn:Hr|].
      - exists 1, [ffmpeg_command src p (i * CHUNK_DURATION)].
        split_and!; [done| |done]. simpl. constructor; [|constructor].
        by eapply command_at_Some.
      - exists 0, []. split_and!; [done|constructor|lia].
      - exists 0, []. split_and!; [done|constructor|lia]. }
    destruct Hm as (m & cmds & ? & ? & ?).
    exists 0, m, cmds, cr1. split_and!; try done; try lia.
    + rewrite Ht. lia.
    + destruct Hcases as [-> | ->]; simpl; lia.
  - injection H as <- <-.
    assert (Hm : ∃ m cmds, runs (trace w1) = runs (trace w) ++ cmds
               ∧ Forall2 (fun j cmd => command_at env src j = Some cmd)
                   (seq i m) cmds ∧ m ≤ 1).
    { destruct (env_getTempFile _) as [[p c]|] eqn:Ha;
        [destruct (env_run _) as [cp|] eqn:Hr|].
      - exists 1, [ffmpeg_command src p (i * CHUNK_DURATION)].
        split_and!; [done| |done]. simpl. constructor; [|constructor].
        by eapply command_at_Some.
      - exists 0, []. split_and!; [done|constructor|lia].
      - exists 0, []. split_and!; [done|constructor|lia]. }
    destruct Hm as (m & cmds & ? & ? & ?).
    exists 0, m, cmds, cr1. split_and!; try done; try lia.
    + rewrite Ht. lia.
    + destruct Hcases as [-> | ->]; simpl; lia.
  - injection H as <- <-. destruct Ht as [Ha ->].
    exists 0, 0, [], []. rewrite !app_nil_r.
    split_and!; simpl; try done; try lia; constructor.
Qed.

Lemma segment_loop_files fuel env src base i w r w' :
  segment_loop fuel env src base i w = (r, w') →
  (∀ q, (∀ j p c, i ≤ j →
           env_getTempFile (env_iteration env j) = Returns (p, c) → p ≠ q) →
        fs w' !! q = fs w !! q)
  ∧ (unique_paths env →
     ∃ n,
       length (transfers (trace w')) = length (transfers (trace w)) + n
       ∧ (∀ j p c, i ≤ j < i + n →
            env_getTempFile (env_iteration env j) = Returns (p, c) →
            fs w' !! p = None)
       ∧ (r = Returns Returned →
          ∀ p c, env_getTempFile (env_iteration env (i + n)) = Returns (p, c) →
                 fs w' !! p = None)).
Proof.
  revert i w. induction fuel as [|fuel IH]; intros i w H.
  { injection H as <- <-. split; [done|]. intros _. exists 0.
    split_and!; [lia|intros; lia|done]. }
  rewrite loop_step in H.
  destruct (iteration _ _ _ _ _) as [r1 w1] eqn:Hit.
  pose proof (iteration_transfers _ _ _ _ _ _ _ Hit) as Ht.
  destruct (iteration_files _ _ _ _ _ _ _ Hit) as [Hframe Hgone].
  destruct r1 as [[]|x].
  - destruct Ht as (p & c & cp & data & created & Ha & _ & _ & _ & _ & _ & Ht).
    apply IH in H as [Hframe' Hgone'].
    split.
    + intros q Hq. rewrite Hframe'; [apply Hframe|].
      * intros p0 c0 Hp0. by apply (Hq i p0 c0).
      * intros j p0 c0 Hj. apply (Hq j p0 c0). lia.
    + intros Huniq. destruct (Hgone' Huniq) as (n & Hn & Hdel & Hret).
      exists (S n). split_and!.
      * rewrite Hn, Ht, length_app. simpl. lia.
      * intros j p0 c0 Hj Hp0.
        destruct (decide (j = i)) as [->|Hne].
        -- rewrite Ha in Hp0. injection Hp0 as <- <-.
           rewrite Hframe'; [apply (Hgone p c Ha); by left|].
           intros j p1 c1 Hj1 Hp1. apply (Huniq j i p1 c1 p c); [done|done|lia].
        -- apply (Hdel j p0 c0); [lia|done].
      * intros Hr p0 c0 Hp0. apply (Hret Hr p0 c0).
        by rewrite <- Nat.add_succ_comm in Hp0.
  - injection H as <- <-. split.
    + intros q Hq. apply Hframe. intros p c. by apply (Hq i p c).
    + intros _. exists 0. split_and!; [rewrite Ht; lia|intros; lia|done].
  - injection H as <- <-. split.
    + intros q Hq. apply Hframe. intros p c. by apply (Hq i p c).
    + intros _. exists 0. split_and!; [rewrite Ht; lia|intros; lia|].
      intros _ p c Hp. rewrite Nat.add_0_r in Hp.
      apply (Hgone p c Hp). by right.
  - injection H as <- <-. destruct Ht as [_ ->]. split; [done|].
    intros _. exists 0. split_and!; [lia|intros; lia|done].
Qed.

Lemma segment_loop_returned_ends_with_error fuel env src base i w w' :
  segment_loop fuel env src base i w = (Returns Returned, w') →
  ∃ t x removed,
    trace w' = t ++ critical_error x :: removed
    ∧ (removed = [] ∨ ∃ p, removed = [OsRemove p]).
Proof.
  revert i w. induction fuel as [|fuel IH]; intros i w H; [discriminate|].
  rewrite loop_step in H.
  destruct (iteration _ _ _ _ _) as [[[]|x] w1] eqn:Hit; try discriminate.
  - by apply IH in H.
  - injection H as <-. by eapply iteration_return_ends_with_error.
Qed.

(** The content of the records a loop emits: at least 1024 bytes, and the
    bytes the tool wrote at that index when it wrote any. *)
Lemma segment_loop_contents fuel env src base i w r w' :
  segment_loop fuel env src base i w = (r, w') →
  ∃ recs,
    transfers (trace w') = transfers (trace w) ++ recs
    ∧ Forall2 (fun j (r : flowfile * string) =>
                 1024 ≤ length (content r.1)
                 ∧ ∀ cp d, env_run (env_iteration env j) = Returns cp →
                           tool_writes cp = Some d → content r.1 = d)
        (seq i (length recs)) recs.
Proof.
  revert i w. induction fuel as [|fuel IH]; intros i w H.
  { injection H as <- <-. exists []. rewrite app_nil_r. split; [done|constructor]. }
  rewrite loop_step in H.
  destruct (iteration _ _ _ _ _) as [r1 w1] eqn:Hit.
  pose proof (iteration_transfers _ _ _ _ _ _ _ Hit) as Ht.
  destruct r1 as [[]|x].
  - destruct Ht as (p & c & cp & data & created & _ & Hr & _ & Hart & Hlen & _ & Ht).
    apply IH in H as (recs & Hrecs & Hall).
    exists ((chunk_record src base i created data, "success") :: recs). split.
    + rewrite Hrecs, Ht, <- app_assoc. reflexivity.
    + simpl. constructor; [|done]. simpl. split; [done|].
      intros cp' d Hr' Hd. rewrite Hr in Hr'. injection Hr' as <-.
      unfold artifact_after in Hart. rewrite Hd in Hart. by injection Hart.
  - injection H as <- <-. exists []. rewrite app_nil_r. split; [done|constructor].
  - injection H as <- <-. exists []. rewrite app_nil_r. split; [done|constructor].
  - injection H as <- <-. destruct Ht as [_ ->].
    exists []. rewrite app_nil_r. split; [done|constructor].
Qed.

(** ** Names of the segments *)

Lemma concat_zeros_succ k s :
  String.concat "" (replicate (S k) "0") +:+ s
  = String "0" (String.concat "" (replicate k "0") +:+ s).
Proof. destruct k; reflexivity. Qed.

Lemma uint_of_string_zero s d :
  NilZero.uint_of_string s = Some d →
  NilZero.uint_of_string (String "0" s) = Some (Decimal.D0 d).
Proof.
  destruct s as [|ch s]; [discriminate|].
  unfold NilZero.uint_of_string. intros H.
  change (NilEmpty.uint_of_string (String "0" (String ch s)))
    with (uint_of_char "0" (NilEmpty.uint_of_string (String ch s))).
  rewrite H. reflexivity.
Qed.

Lemma fmt_03d_parses n :
  ∃ d, NilZero.uint_of_string (Py.fmt_03d n) = Some d ∧ Nat.of_uint d = n.
Proof.
  unfold Py.fmt_03d.
  induction (3 - String.length (Py.str_nat n)) as [|k (d & Hd & Hn)].
  - exists (Nat.to_uint n). split; [|apply DecimalNat.Unsigned.of_to].
    apply NilZero.usu.
    rewrite <- (DecimalNat.Unsigned.of_to n) at 1.
    rewrite DecimalNat.Unsigned.to_of. apply DecimalFacts.unorm_nonnil.
  - exists (Decimal.D0 d). rewrite concat_zeros_succ. split.
    + by apply uint_of_string_zero.
    + rewrite <- Hn. reflexivity.
Qed.

Lemma fmt_03d_inj a b : Py.fmt_03d a = Py.fmt_03d b → a = b.
Proof.
  intros H.
  destruct (fmt_03d_parses a) as (da & Ha & <-).
  destruct (fmt_03d_parses b) as (db & Hb & <-).
  rewrite H in Ha. rewrite Ha in Hb. by injection Hb as ->.
Qed.



(** ** The handler around the loop *)

Lemma input_events_calls ff :
  transfers (input_events ff) = [] ∧ runs (input_events ff) = []
  ∧ creations (input_events ff) = [] ∧ removals (input_events ff) = [].
Proof. unfold input_events. destruct (Py.falsy _); done. Qed.

Lemma summary_events_calls k :
  transfers (summary_events k) = [] ∧ runs (summary_events k) = []
  ∧ creations (summary_events k) = [] ∧ removals (summary_events k) = [].
Proof. unfold summary_events. destruct (decide _); done. Qed.

(** A run with an input record whose disposal succeeds is the loop, started
    after the disposal, followed by the summary when the loop was left by
    [break]. *)
Lemma handler_through_loop env fuel ff w :
  env_remove env = None →
  ∃ r1 w1,
    segment_loop fuel env (resolve_source_link ff) (resolve_base_filename ff) 0
      (World (fs w) (trace w ++ input_events ff ++ [SessionRemove ff])) = (r1, w1)
    ∧ fs (handler env fuel (Some ff) w).2 = fs w1
    ∧ trace (handler env fuel (Some ff) w).2
      = trace w1 ++ match r1 with
                    | Returns (Broke k) => summary_events k
                    | _ => []
                    end
    ∧ (handler env fuel (Some ff) w).1
      = match r1 with
        | Returns (Broke _) | Returns Returned => Returns Done
        | Returns (Exhausted _) => Returns OutOfFuel
        | Raises x => Raises x
        end.
Proof.
  intros Hrm. rewrite handler_Some, Hrm.
  destruct (segment_loop _ _ _ _ _ _) as [r1 w1].
  exists r1, w1. split; [done|].
  destruct r1 as [[k| |k]|x]; cbn [fst snd fs trace]; rewrite ?app_nil_r; done.
Qed.

(** X1.  Without an input record the handler logs the condition and returns:
    it calls neither the session nor the tool, allocates no temporary file
    and leaves the files alone, whatever the environment. *)
Theorem missing_input_is_only_logged (env : environment) (fuel : nat) (w : world) :
  let out := handler env fuel None w in
  out.1 = Returns Done
  ∧ fs out.2 = fs w
  ∧ trace out.2 = trace w ++
      [ Log INFO "Starting optimized MPG to 30-second MP3 chunks extraction process (Diagnostic Bypass Active)...";
        Log ERROR "Input FlowFile is None." ].
Proof. rewrite handler_None. done. Qed.

(** X2.  An exception of [session.remove] reaches the host: the call is made
    before the loop and outside any [try].  Nothing but logging has happened
    by then: no temporary file, no tool run, no record. *)
Theorem remove_failure_reaches_host (env : environment) (fuel : nat)
    (ff : flowfile) (w : world) (x : pyexn) :
  env_remove env = Some x →
  let out := handler env fuel (Some ff) w in
  out.1 = Raises x
  ∧ fs out.2 = fs w
  ∧ ∃ logs, trace out.2 = trace w ++ logs
            ∧ Forall (fun ev => ∃ lvl msg, ev = Log lvl msg) logs.
Proof.
  intros Hrm. cbv zeta. rewrite handler_Some, Hrm. split_and!; [done..|].
  exists (input_events ff). split; [done|].
  unfold input_events. destruct (Py.falsy _); repeat constructor; eauto.
Qed.

Lemma remove_failure_reaches_host_witness :
  (handler env_remove_fails 5 (Some movie) empty_world).1
  = Raises (Exception "session closed")
  ∧ fs (handler env_remove_fails 5 (Some movie) empty_world).2 = ∅.
Proof.
  destruct (remove_failure_reaches_host env_remove_fails 5 movie empty_world
              (Exception "session closed") eq_refl) as (H1 & H2 & _).
  split; [exact H1|exact H2].
Defined.

Lemma recent_app (t l : list event) : recent (length l) (t ++ l) = l.
Proof.
  unfold recent. rewrite length_app.
  replace (length t + length l - length l) with (length t) by lia.
  apply drop_app_length.
Qed.

(** X3.  A run that returns either ends with the summary, and then the
    summary states the number of records the run has transferred (as an
    error line when that number is zero, followed by the closing line), or
    it ended in the [except] block, and then its last events are the error
    line of that block and the deletion of the temporary file: no summary is
    logged. *)
Theorem summary_reports_emitted_count (env : environment) (fuel : nat)
    (ff : flowfile) (w : world) :
  let out := handler env fuel (Some ff) w in
  let n := length (transfers (trace out.2)) - length (transfers (trace w)) in
  out.1 = Returns Done →
  recent 2 (trace out.2)
  = [ if decide (n = 0)
      then Log ERROR "No MP3 segments were successfully created and transferred."
      else Log INFO ("MP3 chunking complete. Total of " +:+ Py.str_nat n
                     +:+ " FlowFiles transferred to success.");
      Log INFO "Process finished." ]
  ∨ (∃ t x removed,
       trace out.2 = t ++ critical_error x :: removed
       ∧ (removed = [] ∨ ∃ p, removed = [OsRemove p])).
Proof.
  cbv zeta. intros Hdone.
  destruct (env_remove env) as [x|] eqn:Hrm.
  { rewrite handler_Some, Hrm in Hdone. discriminate. }
  destruct (handler_through_loop env fuel ff w Hrm)
    as (r1 & w1 & Hloop & _ & Htrace & Hres).
  rewrite Hres in Hdone. rewrite Htrace.
  destruct r1 as [[k| |k]|x]; try discriminate.
  - left.
    apply segment_loop_transfers in Hloop as (n & recs & Ht & Hrecs & ->).
    apply Forall2_length in Hrecs. rewrite length_seq in Hrecs.
    cbn [trace] in Ht.
    destruct (input_events_calls ff) as (Hin & _).
    destruct (summary_events_calls (0 + n)) as (Hsum & _).
    rewrite !transfers_app, Hin in Ht. cbn in Ht. rewrite app_nil_r in Ht.
    rewrite transfers_app, Hsum, app_nil_r, Ht, length_app, <- Hrecs.
    replace (length (transfers (trace w)) + n
             - length (transfers (trace w))) with (0 + n) by lia.
    apply (recent_app (trace w1) (summary_events (0 + n))).
  - right. rewrite app_nil_r.
    by eapply segment_loop_returned_ends_with_error.
Qed.

Lemma summary_reports_emitted_count_witness :
  recent 2 (trace (handler env_final_segment 4 (Some movie) empty_world).2)
  = [ Log INFO "MP3 chunking complete. Total of 3 FlowFiles transferred to success.";
      Log INFO "Process finished." ].
Proof.
  destruct (summary_reports_emitted_count env_final_segment 4 movie empty_world)
    as [H|(t & x & removed & H & Hr)].
  - vm_compute. reflexivity.
  - exact H.
  - exfalso. revert H Hr. vm_compute. intros H Hr.
    apply (f_equal (@rev event)) in H. rewrite rev_app_distr in H.
    destruct Hr as [->|[p ->]]; simpl in H; discriminate H.
Defined.

(** ** The tool, the records and the files over a whole run *)


(** X13.  The records [session.create] has returned are the transferred
    ones and at most one more: a record whose emission raised after its
    creation is neither transferred nor removed.  [session.remove] disposes
    of the input record, once, and of no other record. *)
Theorem created_records_are_transferred_or_left (env : environment)
    (fuel : nat) (ff : flowfile) (w : world) :
  let out := handler env fuel (Some ff) w in
  (∃ created,
     creations (trace out.2) = creations (trace w) ++ created
     ∧ length (transfers (trace out.2)) - length (transfers (trace w))
       ≤ length created
     ∧ length created
       ≤ length (transfers (trace out.2)) - length (transfers (trace w)) + 1)
  ∧ removals (trace out.2)
    = removals (trace w)
      ++ match env_remove env with None => [ff] | Some _ => [] end.
Proof.
  cbv zeta.
  destruct (input_events_calls ff) as (Hint & _ & Hinc & Hinx).
  destruct (env_remove env) as [x|] eqn:Hrm.
  { rewrite handler_Some, Hrm. cbn [snd trace].
    rewrite creations_app, removals_app, transfers_app, Hint, Hinc, Hinx,
      !app_nil_r.
    split; [|done]. exists []. rewrite app_nil_r. simpl. split_and!; [done|lia|lia]. }
  destruct (handler_through_loop env fuel ff w Hrm)
    as (r1 & w1 & Hloop & _ & Htrace & _).
  rewrite Htrace.
  apply segment_loop_calls in Hloop
    as (n & m & cmds & cr & Hn & _ & _ & _ & Hcr & Hlen & Hrem).
  cbn [trace] in Hn, Hcr, Hrem.
  rewrite !transfers_app, Hint in Hn. rewrite !creations_app, Hinc in Hcr.
  rewrite !removals_app, Hinx in Hrem.
  cbn in Hn, Hcr, Hrem. rewrite app_nil_r in Hn, Hcr.
  assert (Htail : ∀ tail, transfers tail = [] → creations tail = [] →
            removals tail = [] →
            creations (trace w1 ++ tail) = creations (trace w) ++ cr
            ∧ removals (trace w1 ++ tail) = removals (trace w) ++ [ff]
            ∧ length (transfers (trace w1 ++ tail))
              - length (transfers (trace w)) = n).
  { intros tail Ht Hc Hx.
    rewrite creations_app, removals_app, transfers_app, Ht, Hc, Hx,
      !app_nil_r, Hn.
    split_and!; [done|done|lia]. }
  destruct r1 as [[k| |k]|x].
  1: destruct (summary_events_calls k) as (Hst & _ & Hsc & Hsx);
     destruct (Htail _ Hst Hsc Hsx) as (-> & -> & ->).
  2-4: destruct (Htail [] eq_refl eq_refl eq_refl) as (-> & -> & ->).
  all: split; [|done]; exists cr; split_and!; [done|lia|lia].
Qed.

(** X5.  A run changes no file other than the temporary ones: a path that
    [getTempFile] never hands out has after the run the content it had
    before. *)
Theorem other_files_untouched (env : environment) (fuel : nat)
    (flowfile : option flowfile) (w : world) (q : string) :
  (∀ j p c, env_getTempFile (env_iteration env j) = Returns (p, c) → p ≠ q) →
  fs (handler env fuel flowfile w).2 !! q = fs w !! q.
Proof.
  intros Hq. destruct flowfile as [ff|]; [|by rewrite handler_None].
  destruct (env_remove env) as [x|] eqn:Hrm.
  { by rewrite handler_Some, Hrm. }
  destruct (handler_through_loop env fuel ff w Hrm)
    as (r1 & w1 & Hloop & -> & _ & _).
  apply segment_loop_files in Hloop as [Hframe _].
  rewrite Hframe; [done|]. intros j p c _. apply Hq.
Qed.

Lemma other_files_untouched_witness :
  fs (handler env_final_segment 10 (Some movie)
        (World {[ "/data/movie.mpg" := blob 5 ]} [])).2 !! "/data/movie.mpg"
  = Some (blob 5).
Proof.
  rewrite (other_files_untouched env_final_segment 10 (Some movie)
             (World {[ "/data/movie.mpg" := blob 5 ]} []) "/data/movie.mpg").
  - reflexivity.
  - intros j p c H. unfold env_final_segment in H. cbn in H.
    destruct (decide (j < 3)); injection H as <- _; discriminate.
Defined.

(** X6.  When [getTempFile] never hands out a path twice, the temporary
    file of every segment the run has transferred is gone after the run; and
    when the loop ends in the [except] block, so is the file of the
    iteration that failed. *)
Theorem transferred_segments_leave_no_file (env : environment) (fuel : nat)
    (ff : flowfile) (w : world) :
  unique_paths env →
  let out := handler env fuel (Some ff) w in
  (∀ j p c,
     j < length (transfers (trace out.2)) - length (transfers (trace w)) →
     env_getTempFile (env_iteration env j) = Returns (p, c) →
     fs out.2 !! p = None)
  ∧ (∀ src base w',
       segment_loop fuel env src base 0 w = (Returns Returned, w') →
       ∀ p c,
         env_getTempFile
           (env_iteration env
              (length (transfers (trace w')) - length (transfers (trace w))))
         = Returns (p, c) →
         fs w' !! p = None).
Proof.
  intros Huniq. cbv zeta. split.
  - destruct (input_events_calls ff) as (Hint & _).
    destruct (env_remove env) as [x|] eqn:Hrm.
    { rewrite handler_Some, Hrm. cbn [snd trace].
      rewrite transfers_app, Hint, app_nil_r. intros j p c Hj. lia. }
    destruct (handler_through_loop env fuel ff w Hrm)
      as (r1 & w1 & Hloop & -> & -> & _).
    apply segment_loop_files in Hloop as [_ Hgone].
    destruct (Hgone Huniq) as (n & Hn & Hdel & _).
    cbn [trace] in Hn. rewrite !transfers_app, Hint in Hn. cbn in Hn.
    rewrite app_nil_r in Hn.
    assert (Hlen : ∀ tail, transfers tail = [] →
              length (transfers (trace w1 ++ tail))
              - length (transfers (trace w)) = n).
    { intros tail Ht. rewrite transfers_app, Ht, app_nil_r, Hn. lia. }
    intros j p c Hj Hp. apply (Hdel j p c); [|done].
    destruct r1 as [[k| |k]|x].
    1: destruct (summary_events_calls k) as (Hst & _);
       rewrite (Hlen _ Hst) in Hj.
    2-4: rewrite (Hlen [] eq_refl) in Hj.
    all: lia.
  - intros src base w' Hloop p c Hp.
    apply segment_loop_files in Hloop as [_ Hgone].
    destruct (Hgone Huniq) as (n & Hn & _ & Hret).
    apply (Hret eq_refl p c).
    rewrite Hn in Hp.
    replace (length (transfers (trace w)) + n - length (transfers (trace w)))
      with n in Hp by lia.
    exact Hp.
Qed.

Lemma unique_paths_final_segment : unique_paths env_final_segment.
Proof.
  intros i j p c p' c' Hi Hj Hne. unfold env_final_segment in Hi, Hj.
  cbn in Hi, Hj.
  destruct (decide (i < 3)); destruct (decide (j < 3));
    injection Hi as <- _; injection Hj as <- _.
  all: unfold temp_path; intros Heq; apply Hne, fmt_03d_inj.
  all: change ("/tmp/segment-" +:+ ?s) with
         (String "/" (String "t" (String "m" (String "p" (String "/"
          (String "s" (String "e" (String "g" (String "m" (String "e"
          (String "n" (String "t" (String "-" s))))))))))))) in Heq.
  all: injection Heq as Heq; by apply string_app_inv_tail in Heq.
Qed.

Lemma transferred_segments_leave_no_file_witness :
  fs (handler env_final_segment 10 (Some movie) empty_world).2
    !! "/tmp/segment-001.mp3" = None.
Proof.
  apply (proj1 (transferred_segments_leave_no_file env_final_segment 10 movie
                  empty_world unique_paths_final_segment) 1
           "/tmp/segment-001.mp3" true).
  - vm_compute. lia.
  - reflexivity.
Defined.

(** X7.  What a transferred record holds is the artifact: the content of
    the record of segment [j] is at least 1024 bytes long, and when the tool
    wrote the file in iteration [j], it is what the tool wrote, byte for
    byte. *)
Theorem transferred_content_is_the_artifact (env : environment) (fuel : nat)
    (ff : flowfile) (w : world) :
  let out := handler env fuel (Some ff) w in
  ∃ recs,
    transfers (trace out.2) = transfers (trace w) ++ recs
    ∧ Forall2
        (fun j (r : flowfile * string) =>
           1024 ≤ length (content r.1)
           ∧ ∀ cp data,
               env_run (env_iteration env j) = Returns cp →
               tool_writes cp = Some data → content r.1 = data)
        (seq 0 (length recs)) recs.
Proof.
  cbv zeta.
  destruct (input_events_calls ff) as (Hint & _).
  destruct (env_remove env) as [x|] eqn:Hrm.
  { rewrite handler_Some, Hrm. cbn [snd trace].
    rewrite transfers_app, Hint. exists []. split; [done|constructor]. }
  destruct (handler_through_loop env fuel ff w Hrm)
    as (r1 & w1 & Hloop & _ & -> & _).
  apply segment_loop_contents in Hloop as (recs & Hrecs & Hall).
  cbn [trace] in Hrecs. rewrite !transfers_app, Hint in Hrecs.
  cbn in Hrecs. rewrite app_nil_r in Hrecs.
  exists recs. split; [|done].
  rewrite transfers_app, Hrecs.
  destruct r1 as [[k| |k]|x]; rewrite ?app_nil_r; try done.
  destruct (summary_events_calls k) as (-> & _). by rewrite app_nil_r.
Qed.

(** X8.  A transferred record is the record the host created for that
    segment with the five attributes set and nothing else touched: it has
    the identifier of the created record, and every attribute other than
    the five is as the host created it.  Nothing is taken over from the
    input record. *)
Theorem transferred_record_keeps_host_attributes (env : environment)
    (fuel : nat) (ff : flowfile) (w : world) :
  let out := handler env fuel (Some ff) w in
  ∃ recs,
    transfers (trace out.2) = transfers (trace w) ++ recs
    ∧ Forall2
        (fun j (r : flowfile * string) =>
           ∃ created,
             env_create (env_iteration env j) = Returns created
             ∧ getUuid r.1 = getUuid created
             ∧ ∀ name, name ∉ chunk_attribute_names →
                 attributes r.1 !! name = attributes created !! name)
        (seq 0 (length recs)) recs.
Proof.
  cbv zeta.
  destruct (handler_transfers env fuel ff w) as (n & recs & Ht & Hrecs).
  exists recs. split; [done|].
  pose proof (Forall2_length _ _ _ Hrecs) as Hlen. rewrite length_seq in Hlen.
  rewrite <- Hlen.
  eapply Forall2_impl; [exact Hrecs|].
  intros j r (created & data & Hc & _ & ->).
  exists created. split_and!; [done|done|].
  intros name Hname. cbn [fst attributes chunk_record].
  unfold chunk_attribute_names in Hname.
  rewrite !lookup_insert_ne; [done|..].
  all: intros <-; apply Hname; set_solver.
Qed.

(** ** How long the loop runs *)





Lemma segment_loop_stops fuel env src base i w r w' n cp :
  segment_loop fuel env src base i w = (r, w') →
  env_run (env_iteration env n) = Returns cp → returncode cp ≠ 0%Z →
  i ≤ n < i + fuel →
  (∀ k, r ≠ Returns (Exhausted k))
  ∧ length (transfers (trace w')) ≤ length (transfers (trace w)) + (n - i).
Proof.
  intros H Hrun Hrc. revert i w H.
  induction fuel as [|fuel IH]; intros i w H Hn; [lia|].
  rewrite loop_step in H.
  destruct (iteration _ _ _ _ _) as [r1 w1] eqn:Hit.
  pose proof (iteration_transfers _ _ _ _ _ _ _ Hit) as Ht.
  destruct r1 as [[]|x].
  - destruct Ht as (p & c & cp' & data & created & _ & Hr' & Hz & _ & _ & _ & Ht).
    destruct (decide (i = n)) as [->|Hne].
    { rewrite Hrun in Hr'. by simplify_eq. }
    apply IH in H as [Hex Hlen]; [|lia]. split; [done|].
    rewrite Ht, length_app in Hlen. simpl in Hlen. lia.
  - injection H as <- <-. split; [done|]. rewrite Ht. lia.
  - injection H as <- <-. split; [done|]. rewrite Ht. lia.
  - destruct Ht as [_ ->]. injection H as <- <-. split; [done|]. lia.
Qed.

(** X11.  A non-zero exit of the tool ends the run: when the tool exits
    non-zero at index [n], a run that is given more than [n] iterations ends
    within them, and it has transferred at most [n] records. *)
Theorem nonzero_exit_ends_the_run (env : environment) (n k : nat)
    (ff : flowfile) (w : world) (cp : completed_process) :
  env_run (env_iteration env n) = Returns cp →
  returncode cp ≠ 0%Z →
  let out := handler env (S n + k) (Some ff) w in
  out.1 ≠ Returns OutOfFuel
  ∧ length (transfers (trace out.2)) ≤ length (transfers (trace w)) + n.
Proof.
  intros Hrun Hrc. cbv zeta.
  destruct (input_events_calls ff) as (Hint & _).
  destruct (env_remove env) as [x|] eqn:Hrm.
  { rewrite handler_Some, Hrm. cbn [fst snd trace].
    rewrite transfers_app, Hint, app_nil_r. split; [done|lia]. }
  destruct (handler_through_loop env (S n + k) ff w Hrm)
    as (r1 & w1 & Hloop & _ & -> & ->).
  eapply segment_loop_stops in Hloop as [Hex Hlen]; [|done..|lia].
  cbn [trace] in Hlen. rewrite !transfers_app, Hint in Hlen. cbn in Hlen.
  rewrite app_nil_r, Nat.sub_0_r in Hlen.
  destruct r1 as [[j| |j]|x]; rewrite ?app_nil_r.
  - split; [done|].
    destruct (summary_events_calls j) as (Hs & _).
    by rewrite transfers_app, Hs, app_nil_r.
  - done.
  - by destruct (Hex j).
  - done.
Qed.

Lemma nonzero_exit_ends_the_run_witness :
  (handler env_final_segment 10 (Some movie) empty_world).1 ≠ Returns OutOfFuel
  ∧ length (transfers
              (trace (handler env_final_segment 10 (Some movie) empty_world).2))
    ≤ 3.
Proof.
  apply (nonzero_exit_ends_the_run env_final_segment 3 6 movie empty_world
           (CompletedProcess 1 [] (Some (blob 2000)))).
  - reflexivity.
  - discriminate.
Defined.

Lemma first_segment_failure_witness :
  ∃ w' removed,
    handler env_first_fails 1 (Some movie) empty_world = (Returns Done, w')
    ∧ transfers (trace w') = []
    ∧ trace w' = input_events movie ++
        [ SessionRemove movie;
          GetTempFile "segment-000" ".mp3" "/tmp/segment-000.mp3";
          executing_log 0;
          run_event "/data/movie.mpg" "/tmp/segment-000.mp3" 0;
          first_segment_log "No such file";
          critical_error (first_segment_exn 1) ] ++ removed
    ∧ (removed = [] ∨ removed = [OsRemove "/tmp/segment-000.mp3"])
    ∧ fs w' !! "/tmp/segment-000.mp3" = None.
Proof.
  apply (first_segment_failure env_first_fails 0 movie empty_world
           "/tmp/segment-000.mp3" true
           (CompletedProcess 1 (list_byte_of_string "No such file") None)
           "No such file").
  - reflexivity.
  - reflexivity.
  - reflexivity.
  - discriminate.
  - simpl. lia.
  - vm_compute. reflexivity.
Defined.

(** ** The error lines of a run *)

Lemma errors_app t1 t2 : errors (t1 ++ t2) = errors t1 ++ errors t2.
Proof. apply omap_app. Qed.

Lemma errors_unchanged t ext : errors (t ++ ext) = errors t ↔ errors ext = [].
Proof.
  rewrite errors_app. split.
  - intros H. apply (app_inv_head (errors t)). by rewrite app_nil_r.
  - intros ->. apply app_nil_r.
Qed.

Lemma try_block_spec_errors e src base i p w r w' :
  try_block_spec e src base i p w r w' →
  ∃ ext, trace w' = trace w ++ ext
         ∧ (∀ f, r = Returns f → f ≠ Return ∧ errors ext = []).
Proof.
  destruct 1; cbn [trace]; eexists; (split; [reflexivity|]).
  all: intros f Hf; try discriminate; injection Hf as <-; split; done.
Qed.

Lemma iteration_errors e src base i w r w' :
  iteration e src base i w = (r, w') →
  ∃ ext, trace w' = trace w ++ ext
         ∧ (r = Returns Return → errors ext ≠ [])
         ∧ (r ≠ Returns Return → errors ext = []).
Proof.
  intros H.
  destruct (iteration_cases e src base i w)
    as [(x & Ha & Hi)|(p & c & r2 & w2 & Ha & Hs & Hi)];
    rewrite Hi in H; clear Hi.
  { injection H as <- <-. exists []. rewrite app_nil_r. done. }
  destruct (try_block_spec_errors _ _ _ _ _ _ _ _ Hs) as (ext & Hext & Hok).
  cbn [after_alloc trace] in Hext.
  destruct r2 as [f|x]; injection H as <- <-; cbn [trace].
  - destruct (Hok f eq_refl) as [Hf Herr].
    eexists. rewrite Hext, <- app_assoc. split; [reflexivity|].
    split; [congruence|]. intros _. by rewrite errors_app, Herr.
  - eexists. rewrite Hext, <- !app_assoc. split; [reflexivity|].
    split; [|done]. intros _.
    rewrite !errors_app. intros Hnil.
    apply app_eq_nil in Hnil as [_ Hnil].
    apply app_eq_nil in Hnil as [_ Hnil]. discriminate.
Qed.

Lemma segment_loop_errors fuel env src base i w r w' :
  segment_loop fuel env src base i w = (r, w') →
  ∃ ext, trace w' = trace w ++ ext
         ∧ (r = Returns Returned → errors ext ≠ [])
         ∧ (r ≠ Returns Returned → errors ext = []).
Proof.
  revert i w. induction fuel as [|fuel IH]; intros i w H.
  { injection H as <- <-. exists []. rewrite app_nil_r. done. }
  rewrite loop_step in H.
  destruct (iteration _ _ _ _ _) as [r1 w1] eqn:Hit.
  apply iteration_errors in Hit as (ext1 & Hext1 & Hret & Hnot).
  destruct r1 as [[]|x].
  - apply IH in H as (ext & Hext & Hr & Hn).
    exists (ext1 ++ ext). rewrite Hext, Hext1, <- app_assoc.
    split; [done|]. rewrite errors_app, Hnot by done. done.
  - injection H as <- <-. exists ext1. split_and!; [done|done|].
    intros _. by apply Hnot.
  - injection H as <- <-. exists ext1. split_and!; [done| |done].
    intros _. by apply Hret.
  - injection H as <- <-. exists ext1. split_and!; [done|done|].
    intros _. by apply Hnot.
Qed.

(** X14.  A run that returns logs no line at [ERROR] level exactly when it
    was given a record carrying [idol.reference], transferred at least one
    segment, and left the loop by [break], so that the closing line is its
    last event.  In every other case (no record, no [idol.reference], no
    segment transferred, or an exception in an iteration) at least one error
    line is logged. *)
Theorem error_line_unless_segments_transferred (env : environment)
    (fuel : nat) (flowfile : option flowfile) (w : world) :
  let out := handler env fuel flowfile w in
  out.1 = Returns Done →
  errors (trace out.2) = errors (trace w)
  ↔ ∃ ff, flowfile = Some ff
          ∧ Py.falsy (getAttribute ff "idol.reference") = false
          ∧ length (transfers (trace w)) < length (transfers (trace out.2))
          ∧ recent 1 (trace out.2) = [Log INFO "Process finished."].
Proof.
  cbv zeta. intros Hdone.
  destruct flowfile as [ff|].
  2: { rewrite handler_None. cbn [snd trace]. rewrite errors_unchanged.
       split; [discriminate|]. by intros (ff & ? & _). }
  destruct (env_remove env) as [x|] eqn:Hrm.
  { rewrite handler_Some, Hrm in Hdone. discriminate. }
  destruct (input_events_calls ff) as (Hint & _).
  destruct (handler_through_loop env fuel ff w Hrm)
    as (r1 & w1 & Hloop & _ & Htrace & Hres).
  rewrite Hres in Hdone. rewrite Htrace.
  pose proof (segment_loop_errors _ _ _ _ _ _ _ _ Hloop)
    as (ext & Hext & Hret & Hnot).
  pose proof (segment_loop_transfers _ _ _ _ _ _ _ _ Hloop)
    as (n & recs & Ht & Hrecs & Hk).
  apply Forall2_length in Hrecs. rewrite length_seq in Hrecs.
  cbn [trace] in Hext, Ht.
  rewrite !transfers_app, Hint in Ht. cbn in Ht. rewrite app_nil_r in Ht.
  assert (Hin : errors (input_events ff) = []
                ↔ Py.falsy (getAttribute ff "idol.reference") = false).
  { unfold input_events. destruct (Py.falsy _); cbn; split; done. }
  destruct r1 as [[k| |k]|x]; try discriminate.
  - assert (Hsum : errors (summary_events k) = [] ↔ k ≠ 0).
    { unfold summary_events. destruct (decide (k = 0)); cbn; split; done. }
    destruct (summary_events_calls k) as (Hst & _).
    assert (Hlen : length (transfers (trace w1 ++ summary_events k))
                   = length (transfers (trace w)) + n).
    { rewrite transfers_app, Hst, app_nil_r, Ht, length_app. lia. }
    assert (Herrs : errors (trace w1 ++ summary_events k) = errors (trace w)
                    ↔ errors (input_events ff) = []
                      ∧ errors (summary_events k) = []).
    { rewrite Hext, <- !app_assoc, errors_unchanged, !errors_app.
      rewrite (Hnot ltac:(done)). cbn [errors omap app].
      split.
      - intros Herr. by apply app_eq_nil in Herr.
      - intros [-> ->]. done. }
    assert (Hlast : recent 1 (trace w1 ++ summary_events k)
                    = [Log INFO "Process finished."]).
    { unfold summary_events. change [?a; ?b] with ([a] ++ [b]).
      rewrite app_assoc. apply (recent_app _ [_]). }
    rewrite Herrs, Hlen, Hin, Hsum. simpl in Hk. split.
    + intros [Hf Hk0]. exists ff. split_and!; [done|done|lia|done].
    + intros (ff' & [= <-] & Hf & Hn & _). split; [done|lia].
  - assert (Herrs : errors (trace w1 ++ []) ≠ errors (trace w)).
    { rewrite app_nil_r, Hext, <- !app_assoc, errors_unchanged, !errors_app.
      intros Herr. apply app_eq_nil in Herr as [_ Herr].
      apply app_eq_nil in Herr as [_ Herr]. by destruct (Hret eq_refl). }
    split; [done|].
    intros (ff' & _ & _ & _ & Hlast).
    destruct (segment_loop_returned_ends_with_error _ _ _ _ _ _ _ Hloop)
      as (t & y & removed & Hw1 & Hrem).
    rewrite app_nil_r, Hw1 in Hlast.
    destruct Hrem as [->|[p ->]].
    + rewrite (recent_app _ [_]) in Hlast. discriminate.
    + change (critical_error y :: [OsRemove p])
        with ([critical_error y] ++ [OsRemove p]) in Hlast.
      rewrite app_assoc, (recent_app _ [_]) in Hlast. discriminate.
Qed.

Lemma error_line_unless_segments_transferred_witness :
  errors (trace (handler env_one_segment 5 (Some movie) empty_world).2) = [].
Proof.
  apply (error_line_unless_segments_transferred env_one_segment 5 (Some movie)
           empty_world).
  - reflexivity.
  - exists movie. split_and!; [reflexivity|reflexivity|vm_compute; lia|].
    vm_compute. reflexivity.
Defined.

(** ** The temporary files a run leaves behind *)




(** ** A file name that starts with its only dot *)

(** X16.  The base name can be empty: for a [filename] that is a dot
    followed by an extension, such as [.mp3], everything before the last dot
    is the empty string, and the handler does not fall back to the
    identifier of the record.  The segments are then named [_chunk_000.mp3],
    [_chunk_001.mp3], ... whatever the input. *)
Theorem base_name_of_dot_file_is_empty (ff : flowfile) (ext : string)
    (i : nat) :
  getAttribute ff "filename" = Some ("." +:+ ext) →
  Py.has_dot ext = false →
  resolve_base_filename ff = ""
  ∧ chunk_filename (resolve_base_filename ff) i
    = "_chunk_" +:+ Py.fmt_03d i +:+ ".mp3".
Proof.
  intros Hf Hext.
  assert (Hbase : resolve_base_filename ff = "").
  { assert (Hne : "." +:+ ext ≠ "") by discriminate.
    unfold resolve_base_filename.
    rewrite (proj2 (truthy_Some _ _) (conj Hf Hne)).
    change ("." +:+ ext) with (String "." ext).
    cbn [Py.has_dot Py.rsplit_dot_head]. rewrite Hext.
    by destruct (decide _). }
  rewrite Hbase. done.
Qed.

Lemma base_name_of_dot_file_is_empty_witness :
  resolve_base_filename (FlowFile "3f2a-77" {[ "filename" := ".mp3" ]} []) = ""
  ∧ chunk_filename
      (resolve_base_filename (FlowFile "3f2a-77" {[ "filename" := ".mp3" ]} [])) 4
    = "_chunk_004.mp3".
Proof.
  apply (base_name_of_dot_file_is_empty
           (FlowFile "3f2a-77" {[ "filename" := ".mp3" ]} []) "mp3" 4).
  - reflexivity.
  - reflexivity.
Defined.
